(** * coordextract: point assembly and batch orchestration

    A shallow embedding of
    - [coordextract/factory/gpx_model_builder.py] (the point assembler
      [process_gpx_to_point_models]) and
    - [coordextract/cli.py] (the orchestrator: [process], [process_batch],
      [process_directory], [main]),
    together with the properties the specification states about them.

    Python values are dynamically typed, exceptions are values of [exn],
    and every effect the code performs (log records, directory creation,
    task creation, file writes, console output) is threaded explicitly. *)

From Stdlib Require Import Floats.PrimFloat ZArith String Ascii List Lia.
From stdpp Require Import gmap strings list.
Import ListNotations.

Local Open Scope string_scope.
Local Open Scope list_scope.

(** ** Python runtime: exceptions, results, values *)

Module Py.

(** The exception classes the two modules mention or can meet.  The
    subclasses of [OSError] (FileExistsError, NotADirectoryError, ...)
    are folded into [OSError], which is how [main] catches them. *)
Inductive exn : Type :=
| TypeError
| ValueError
| OSError
| RuntimeError
| NotImplementedError
| ValidationError
| OtherException (name : string).

Inductive result (A : Type) : Type :=
| Ok (a : A)
| Raise (e : exn).
Arguments Ok {A} a.
Arguments Raise {A} e.

Definition is_ok {A} (r : result A) : bool :=
  match r with Ok _ => true | Raise _ => false end.

(** Computations that may raise and that act on a state [S]; the state
    reached when the exception was raised is kept. *)
Definition M (S A : Type) : Type := S -> result A * S.

Definition ret {S A} (a : A) : M S A := fun s => (Ok a, s).

Definition bind {S A B} (m : M S A) (k : A -> M S B) : M S B :=
  fun s =>
    match m s with
    | (Ok a, s') => k a s'
    | (Raise e, s') => (Raise e, s')
    end.

Definition lift {S A} (r : result A) : M S A := fun s => (r, s).

Notation "x <- m ;; k" := (bind m (fun x => k))
  (at level 100, m at next level, right associativity).
Notation "m ;;; k" := (bind m (fun _ => k))
  (at level 100, right associativity).

(** A coordinate as the parser hands it over: a float (an IEEE binary64,
    NaN included) or a piece of text. *)
Inductive pyval : Type :=
| PyFloat (f : float)
| PyStr (s : string).

(** [math.isnan(x)]: defined on real numbers; a [str] argument raises
    [TypeError: must be real number, not str]. *)
Definition math_isnan (x : pyval) : result bool :=
  match x with
  | PyFloat f => Ok (PrimFloat.is_nan f)
  | PyStr _ => Raise TypeError
  end.

End Py.
Export Py.

(** ** The point assembler, [gpx_model_builder.py] *)

Module Builder.

(** One raw coordinate pair [(latitude, longitude)]. *)
Definition point : Type := pyval * pyval.

(** What [async_parse_gpx] returns: waypoints, trackpoints, routepoints. *)
Definition parsed : Type := list point * list point * list point.

(** Modelled from the spec: the record type [PointModel] of
    [coordextract.models.point] is not part of the sources at hand; it is
    the immutable record of section 3, with the field names the
    constructor call in [process_gpx_to_point_models] uses. *)
Record PointModel : Type := mkPointModel {
  name : option string;
  gpxpoint : string;
  latitude : pyval;
  longitude : pyval;
  mgrs : string
}.

(** A record handed to the [logging] module. *)
Record log_record : Type := mkLog {
  levelname : string;
  msg : string;
  args : pyval * pyval
}.

(** [logging.error("Skipping invalid point with coordinates: %s, %s",
    latitude, longitude)] *)
Definition skip_record (latitude longitude : pyval) : log_record :=
  {| levelname := "ERROR";
     msg := "Skipping invalid point with coordinates: %s, %s";
     args := (latitude, longitude) |}.

Definition logging_error (r : log_record) : M (list log_record) unit :=
  fun log => (Ok tt, log ++ [r]).

(** [math.isnan(latitude) or math.isnan(longitude)]: [or] evaluates its
    right operand only when the left one is false. *)
Definition nan_test (p : point) : result bool :=
  match math_isnan (fst p) with
  | Raise e => Raise e
  | Ok true => Ok true
  | Ok false => math_isnan (snd p)
  end.

Section Assembler.

(** The two collaborators imported by the module. *)
Variable async_parse_gpx : string -> result parsed.
Variable latlon_to_mgrs : pyval -> pyval -> result string.

(** [for latitude, longitude in points: ...] for one [point_type];
    [point_models] is the list being appended to. *)
Fixpoint points_loop (point_type : string) (points : list point)
  (point_models : list PointModel) : M (list log_record) (list PointModel) :=
  match points with
  | [] => ret point_models
  | (latitude, longitude) :: rest =>
      b <- lift (nan_test (latitude, longitude)) ;;
      if b then
        logging_error (skip_record latitude longitude) ;;;
        points_loop point_type rest point_models
      else
        mgrs <- lift (latlon_to_mgrs latitude longitude) ;;
        let point_model :=
          {| name := None;
             gpxpoint := point_type;
             latitude := latitude;
             longitude := longitude;
             mgrs := mgrs |} in
        points_loop point_type rest (point_models ++ [point_model])
  end.

(** [for point_type, points in points_with_types.items(): ...]; a dict
    iterates in insertion order, so it is kept as an association list. *)
Fixpoint types_loop (items : list (string * list point))
  (point_models : list PointModel) : M (list log_record) (list PointModel) :=
  match items with
  | [] => ret point_models
  | (point_type, points) :: rest =>
      point_models' <- points_loop point_type points point_models ;;
      types_loop rest point_models'
  end.

Definition points_with_types (p : parsed) : list (string * list point) :=
  let '(waypoints, trackpoints, routepoints) := p in
  [ ("waypoint", waypoints);
    ("trackpoint", trackpoints);
    ("routepoint", routepoints) ].

(** The body once the parser has returned. *)
Definition assemble (p : parsed) : M (list log_record) (list PointModel) :=
  types_loop (points_with_types p) [].

Definition process_gpx_to_point_models (gpx_file_path : string)
  : M (list log_record) (list PointModel) :=
  p <- lift (async_parse_gpx gpx_file_path) ;;
  assemble p.

End Assembler.

(** *** Vocabulary for the statements *)

Definition coords (r : PointModel) : point := (latitude r, longitude r).

(** The pair takes the [continue] branch. *)
Definition skipped (p : point) : bool :=
  match nan_test p with Ok true => true | _ => false end.

(** The pair passes the NaN test and goes on to the converter. *)
Definition kept (p : point) : bool :=
  match nan_test p with Ok false => true | _ => false end.



Definition all_points (p : parsed) : list point :=
  let '(waypoints, trackpoints, routepoints) := p in
  waypoints ++ trackpoints ++ routepoints.


(** What a record built for the category [ty] looks like: no name, the
    category, and the grid reference the converter gives for the record's
    own coordinates. *)
Definition built_for (latlon_to_mgrs : pyval -> pyval -> result string)
  (ty : string) (r : PointModel) : Prop :=
  gpxpoint r = ty /\ name r = None /\
  latlon_to_mgrs (latitude r) (longitude r) = Ok (mgrs r).

(** The diagnostics a list of pairs gives rise to, one per skipped pair. *)
Definition diagnostics (points : list point) : list log_record :=
  List.map (fun q => skip_record (fst q) (snd q)) (List.filter skipped points).

(** A converter and a parser for the worked examples: the converter
    refuses text and otherwise answers a fixed square; the parser knows
    three files. *)
Definition demo_mgrs (latitude longitude : pyval) : result string :=
  match latitude, longitude with
  | PyFloat _, PyFloat _ => Ok "18SUJ2348306479"
  | _, _ => Raise ValueError
  end.

Definition demo_parsed : parsed :=
  ( [ (PyFloat 38.5%float, PyFloat (-77.25)%float);
      (PyFloat PrimFloat.nan, PyFloat 1%float) ],
    [ (PyFloat 1%float, PyFloat PrimFloat.nan);
      (PyFloat 2%float, PyFloat 3%float) ],
    [ (PyFloat PrimFloat.nan, PyStr "east");
      (PyFloat 4%float, PyFloat 5%float) ] ).

Definition all_nan_parsed : parsed :=
  ( [ (PyFloat PrimFloat.nan, PyFloat 1%float) ],
    [ (PyFloat 1%float, PyFloat PrimFloat.nan) ],
    [ (PyFloat PrimFloat.nan, PyFloat PrimFloat.nan) ] ).

Definition text_parsed : parsed :=
  ( [ (PyFloat 2%float, PyFloat 3%float) ],
    [ (PyFloat 1%float, PyStr "east") ],
    [ ] ).

(** What the assembler answers for [demo_parsed] with [demo_mgrs]. *)
Definition demo_records : list PointModel :=
  [ mkPointModel None "waypoint" (PyFloat 38.5%float) (PyFloat (-77.25)%float)
      "18SUJ2348306479";
    mkPointModel None "trackpoint" (PyFloat 2%float) (PyFloat 3%float)
      "18SUJ2348306479";
    mkPointModel None "routepoint" (PyFloat 4%float) (PyFloat 5%float)
      "18SUJ2348306479" ].

Definition demo_parse (gpx_file_path : string) : result parsed :=
  if String.eqb gpx_file_path "/data/demo.gpx" then Ok demo_parsed
  else if String.eqb gpx_file_path "/data/nan.gpx" then Ok all_nan_parsed
  else if String.eqb gpx_file_path "/data/text.gpx" then Ok text_parsed
  else Raise ValueError.





(** The exception one pair makes the loop body raise, if any: the one of
    the NaN test, or the converter's for a pair that passes the test. *)
Definition pair_error (latlon_to_mgrs : pyval -> pyval -> result string)
  (p : point) : option exn :=
  match nan_test p with
  | Raise e => Some e
  | Ok true => None
  | Ok false =>
      match latlon_to_mgrs (fst p) (snd p) with
      | Raise e => Some e
      | Ok _ => None
      end
  end.

(** The exception of the first pair of the list that raises one. *)
Fixpoint first_error (latlon_to_mgrs : pyval -> pyval -> result string)
  (points : list point) : option exn :=
  match points with
  | [] => None
  | p :: rest =>
      match pair_error latlon_to_mgrs p with
      | Some e => Some e
      | None => first_error latlon_to_mgrs rest
      end
  end.

(** The pairs in front of the first pair that raises. *)
Fixpoint before_error (latlon_to_mgrs : pyval -> pyval -> result string)
  (points : list point) : list point :=
  match points with
  | [] => []
  | p :: rest =>
      match pair_error latlon_to_mgrs p with
      | Some _ => []
      | None => p :: before_error latlon_to_mgrs rest
      end
  end.

(** A converter for the worked examples that knows the valid range: it
    refuses text and latitudes beyond 90 degrees. *)
Definition ranged_mgrs (latitude longitude : pyval) : result string :=
  match latitude, longitude with
  | PyFloat la, PyFloat _ =>
      if PrimFloat.leb (PrimFloat.abs la) 90%float
      then Ok "18SUJ2348306479"
      else Raise ValueError
  | _, _ => Raise ValueError
  end.

(** A parsed file whose second trackpoint is out of range, behind a
    skipped waypoint and in front of a skipped routepoint. *)
Definition out_of_range_parsed : parsed :=
  ( [ (PyFloat PrimFloat.nan, PyFloat 1%float);
      (PyFloat 2%float, PyFloat 3%float) ],
    [ (PyFloat 4%float, PyFloat 5%float);
      (PyFloat 200%float, PyFloat 5%float) ],
    [ (PyFloat 1%float, PyFloat PrimFloat.nan) ] ).

Definition ranged_parse (gpx_file_path : string) : result parsed :=
  if String.eqb gpx_file_path "/data/range.gpx" then Ok out_of_range_parsed
  else demo_parse gpx_file_path.

End Builder.

(** ** Paths and the file system, as [pathlib] shows them *)

Module Pathlib.

(** A path is its anchor (["/"] for an absolute path, [""] for a relative
    one) and its segments; [Path(".")] has no segment. *)
Record Path : Type := mkPath {
  anchor : string;
  segments : list string
}.

#[global] Instance Path_eq_dec : EqDecision Path.
Proof. solve_decision. Defined.

#[global] Instance Path_countable : Countable Path.
Proof.
  refine (inj_countable' (fun p => (anchor p, segments p))
                         (fun t => mkPath (fst t) (snd t)) _).
  intros []; reflexivity.
Defined.

Definition Path_dot : Path := mkPath "" [].

(** [p / segment], for a [segment] that is one plain file name (no
    separator, neither empty nor ["."]); these are the only uses in
    [cli.py]. *)
Definition truediv (p : Path) (segment : string) : Path :=
  mkPath (anchor p) (segments p ++ [segment]).

Notation "p // s" := (truediv p s) (at level 40, left associativity).

(** [p.name]: the last segment, the empty string when there is none. *)
Definition name (p : Path) : string := List.last (segments p) "".

Definition parent (p : Path) : Path :=
  mkPath (anchor p) (List.removelast (segments p)).

(** [s.rfind(c)]: the highest index of [c] in [s]; [None] stands for -1. *)
Fixpoint rfind (c : ascii) (s : string) : option nat :=
  match s with
  | EmptyString => None
  | String a r =>
      match rfind c r with
      | Some i => Some (S i)
      | None => if Ascii.eqb a c then Some 0 else None
      end
  end.

(** The index at which [pathlib] cuts a name into stem and suffix:
    [i = name.rfind('.')], accepted when [0 < i < len(name) - 1]
    (the definition of CPython 3.8 to 3.12). *)
Definition suffix_index (name : string) : option nat :=
  match rfind "." name with
  | Some i =>
      if (0 <? i)%nat && (i <? String.length name - 1)%nat then Some i else None
  | None => None
  end.

(** [p.suffix]: [name[i:]], or the empty string. *)
Definition suffix (p : Path) : string :=
  match suffix_index (name p) with
  | Some i => String.substring i (String.length (name p) - i) (name p)
  | None => ""
  end.

(** [p.stem]: [name[:i]], or the whole name. *)
Definition stem (p : Path) : string :=
  match suffix_index (name p) with
  | Some i => String.substring 0 i (name p)
  | None => name p
  end.

(** [str(p)] *)
Definition path_str (p : Path) : string :=
  match segments p with
  | [] => if String.eqb (anchor p) "" then "." else anchor p
  | _ => anchor p ++ String.concat "/" (segments p)
  end.

(** What a path leads to. *)
Inductive entry : Type :=
| Dir
| File (content : string).

(** The file system: the entries below the anchors.  A path without
    segments (the root, the working directory) is always a directory. *)
Abbreviation filesystem := (gmap Path entry).

Definition is_dir (m : filesystem) (p : Path) : bool :=
  match segments p with
  | [] => true
  | _ => match m !! p with Some Dir => true | _ => false end
  end.

(** [q] is an entry directly inside the directory [d]. *)
Definition child_of (d q : Path) : bool :=
  bool_decide (segments q <> [] /\ parent q = d).

(** [d.iterdir()]: the entries directly inside [d], in the order the
    operating system lists them; [NotADirectoryError] otherwise. *)
Definition iterdir (m : filesystem) (d : Path) : result (list Path) :=
  if is_dir m d
  then Ok (List.filter (child_of d) (List.map fst (map_to_list m)))
  else Raise OSError.

(** The paths [p.mkdir(parents=True)] visits, from the outermost. *)
Fixpoint prefixes (done : list string) (segs : list string) : list (list string) :=
  match segs with
  | [] => []
  | s :: rest => (done ++ [s]) :: prefixes (done ++ [s]) rest
  end.

Definition mkdir_step (a : string) (r : result filesystem) (q : list string)
  : result filesystem :=
  match r with
  | Raise e => Raise e
  | Ok m =>
      match m !! mkPath a q with
      | Some Dir => Ok m
      | Some (File _) => Raise OSError
      | None => Ok (<[mkPath a q := Dir]> m)
      end
  end.

(** [p.mkdir(parents=True, exist_ok=True)]: every missing directory on the
    way is created, an existing directory is left alone, a file in the
    way is [FileExistsError] or [NotADirectoryError]. *)
Definition mkdir_parents (m : filesystem) (p : Path) : result filesystem :=
  List.fold_left (mkdir_step (anchor p)) (prefixes [] (segments p)) (Ok m).

(** Writing a whole file: the target must not be a directory and must sit
    in an existing directory. *)
Definition write_file (m : filesystem) (p : Path) (content : string)
  : result filesystem :=
  if is_dir m p then Raise OSError
  else if is_dir m (parent p) then Ok (<[p := File content]> m)
  else Raise OSError.

End Pathlib.
Export Pathlib.

(** ** The orchestrator, [cli.py] *)

Module Cli.

(** The arguments of one call [pc(inputfile, outputfile, indentation,
    concurrency, context)]; [context] is [None] where the caller leaves
    it to the default of [pc]. *)
Record pc_call : Type := mkCall {
  inputfile : Path;
  outputfile : option Path;
  indentation : option Z;
  concurrency : bool;
  context : option string
}.

(** What the process does to the outside, in the order it does it.
    [EMkdir] is the call of [mkdir]; [ETaskStart] carries the file system
    the task finds when the event loop first runs it. *)
Inductive event : Type :=
| EMkdir (p : Path)
| ECreateTask (c : pc_call)
| ETaskStart (c : pc_call) (found : filesystem)
| ELog (r : Builder.log_record)
| EWrite (p : Path) (content : string)
| EPrint (text : string)
| EPrintErr (e : exn).

(** Computations of the orchestrator: they act on the file system, they
    may raise, and they leave events behind; the events of a computation
    that raised are kept. *)
Definition IO (A : Type) : Type :=
  filesystem -> result A * filesystem * list event.

Definition io_ret {A} (a : A) : IO A := fun m => (Ok a, m, []).

Definition io_bind {A B} (x : IO A) (k : A -> IO B) : IO B :=
  fun m =>
    match x m with
    | (Ok a, m1, evs1) =>
        let '(r, m2, evs2) := k a m1 in (r, m2, evs1 ++ evs2)
    | (Raise e, m1, evs1) => (Raise e, m1, evs1)
    end.

Notation "x <~ m ;; k" := (io_bind m (fun x => k))
  (at level 100, m at next level, right associativity).
Notation "m ~;; k" := (io_bind m (fun _ => k))
  (at level 100, right associativity).

Definition result_of {R} (t : R * filesystem * list event) : R :=
  fst (fst t).
Definition fs_of {R} (t : R * filesystem * list event) : filesystem :=
  snd (fst t).
Definition events_of {R} (t : R * filesystem * list event) : list event :=
  snd t.

(** How [main] ends: [sys.exit(code)], or an exception nobody caught. *)
Inductive outcome : Type :=
| Exit (code : Z)
| Uncaught (e : exn).

(** The [except] clause of [main]. *)
Definition caught (e : exn) : bool :=
  match e with
  | ValueError | OSError | RuntimeError | NotImplementedError
  | ValidationError => true
  | TypeError | OtherException _ => false
  end.

(** [print(json_str)] *)
Definition print (text : string) : IO unit :=
  fun m => (Ok tt, m, [EPrint text]).

(** [outputdir.mkdir(parents=True, exist_ok=True)] *)
Definition mkdir (p : Path) : IO unit :=
  fun m =>
    match mkdir_parents m p with
    | Ok m' => (Ok tt, m', [EMkdir p])
    | Raise e => (Raise e, m, [EMkdir p])
    end.

(** [output or default]: a [Path] is always true, so only [None] gives
    way to the default. *)
Definition or_default (output : option Path) (default : Path) : Path :=
  match output with
  | Some p => p
  | None => default
  end.

(** [file.suffix == ".gpx"] *)
Definition has_gpx_suffix (file : Path) : bool :=
  String.eqb (suffix file) ".gpx".

(** The call the comprehension of [process_batch] makes for [file]:
    [pc(file, outputdir / f"{file.stem}.json", indentation, concurrency)]. *)
Definition batch_call (outputdir : Path) (indentation : option Z)
  (concurrency : bool) (file : Path) : pc_call :=
  mkCall file (Some (outputdir // (stem file ++ ".json")))
         indentation concurrency None.

(** The tasks with their positions in the argument list of [gather]. *)
Definition indexed {A} (l : list A) : list (nat * A) :=
  List.combine (List.seq 0 (List.length l)) l.

(** The order in which tasks come to their end.  A schedule names, one
    after the other, the position among the tasks still pending of the
    task that ends next; a position that names no pending task is passed
    over, and when the schedule is used up the pending tasks end in the
    order of their creation.  Every order of the tasks is the one of
    some schedule. *)
Fixpoint completion_order {A} (schedule : list nat) (pending : list A) : list A :=
  match schedule with
  | [] => pending
  | k :: rest =>
      match pending !! k with
      | Some t => t :: completion_order rest (delete k pending)
      | None => completion_order rest pending
      end
  end.

(** The results of [n] tasks in the order of the arguments of [gather]. *)
Definition in_argument_order (n : nat) (l : list (nat * option string))
  : list (option string) :=
  List.map
    (fun i =>
       match List.find (fun p => Nat.eqb (fst p) i) l with
       | Some p => snd p
       | None => None
       end)
    (List.seq 0 n).

Section Orchestrator.

(** The collaborators behind [process_coords]: the track parser, the
    grid converter, and the JSON serializer with its indentation. *)
Variable async_parse_gpx : string -> result Builder.parsed.
Variable latlon_to_mgrs : pyval -> pyval -> result string.
Variable serialize : list Builder.PointModel -> option Z -> string.

(** The schedule of the event loop.  Which task ends first is decided by
    the await points of [process_coords] and by the input and output it
    waits for, not by [cli.py]: it is a parameter, and what is proved
    below is proved for every schedule. *)
Variable schedule : list nat.

(** Modelled from the spec: [process_coords] (imported as [pc]) is not
    part of the sources at hand.  It is the single-file pipeline of
    section 4.4: parse, assemble, serialize the ordered sequence with the
    given indentation, then either write the text to the output path and
    answer [None], or answer the text when there is no output path.  The
    concurrency flag and the context select no other result. *)
Definition pc (c : pc_call) : IO (option string) :=
  fun m =>
    let '(r, log) :=
      Builder.process_gpx_to_point_models async_parse_gpx latlon_to_mgrs
        (path_str (inputfile c)) [] in
    match r with
    | Raise e => (Raise e, m, List.map ELog log)
    | Ok point_models =>
        let json_str := serialize point_models (indentation c) in
        match outputfile c with
        | None => (Ok (Some json_str), m, List.map ELog log)
        | Some out =>
            match write_file m out json_str with
            | Raise e => (Raise e, m, List.map ELog log)
            | Ok m' => (Ok None, m', List.map ELog log ++ [EWrite out json_str])
            end
        end
    end.

(** [async def process(...)] *)
Definition process (inputfile : Path) (outputfile : option Path)
  (indentation : option Z) (concurrency : bool) : IO unit :=
  json_str <~ pc (mkCall inputfile outputfile indentation concurrency (Some "cli")) ;;
  match json_str with
  | Some text => print text
  | None => io_ret tt
  end.

(** [asyncio.create_task(coro)]: the task is queued, not yet run; the
    handle stands for the coroutine with its arguments. *)
Definition create_task (c : pc_call) : IO pc_call :=
  fun m => (Ok c, m, [ECreateTask c]).

(** The list comprehension of [process_batch]. *)
Fixpoint create_tasks (files : list Path) (outputdir : Path)
  (indentation : option Z) (concurrency : bool) : IO (list pc_call) :=
  match files with
  | [] => io_ret []
  | file :: rest =>
      t <~ create_task (batch_call outputdir indentation concurrency file) ;;
      ts <~ create_tasks rest outputdir indentation concurrency ;;
      io_ret (t :: ts)
  end.

(** The event loop brings the tasks to their end one after the other,
    in the order given, until one of them raises: [gather] then raises
    that exception in [process_batch], [process_batch] raises it in
    [asyncio.run], and [asyncio.run] cancels the tasks that have not come
    to their end.  The pipeline of a task is taken as one step, so a
    cancelled task leaves no event. *)
Fixpoint run_tasks (tasks : list (nat * pc_call)) (m : filesystem)
  : result (list (nat * option string)) * filesystem * list event :=
  match tasks with
  | [] => (Ok [], m, [])
  | (k, t) :: rest =>
      match pc t m with
      | (Raise e, m1, evs1) => (Raise e, m1, ETaskStart t m :: evs1)
      | (Ok a, m1, evs1) =>
          let '(r, m2, evs2) := run_tasks rest m1 in
          (match r with
           | Ok l => Ok ((k, a) :: l)
           | Raise e => Raise e
           end,
           m2, ETaskStart t m :: evs1 ++ evs2)
      end
  end.

(** [await asyncio.gather] of the tasks: the results in the order of the
    arguments when every task has come to its end, and otherwise the
    exception that was raised first. *)
Definition gather (tasks : list pc_call) : IO (list (option string)) :=
  fun m =>
    let '(r, m', evs) :=
      run_tasks (completion_order schedule (indexed tasks)) m in
    (match r with
     | Ok l => Ok (in_argument_order (List.length tasks) l)
     | Raise e => Raise e
     end,
     m', evs).

(** [async def process_batch(...)] *)
Definition process_batch (files : list Path) (outputdir : Path)
  (indentation : option Z) (concurrency : bool) : IO unit :=
  mkdir outputdir ~;;
  tasks <~ create_tasks files outputdir indentation concurrency ;;
  gather tasks ~;;
  io_ret tt.

(** [async def process_directory(...)] *)
Definition process_directory (inputdir outputdir : Path)
  (indentation : option Z) (concurrency : bool) : IO unit :=
  fun m =>
    match iterdir m inputdir with
    | Raise e => (Raise e, m, [])
    | Ok entries =>
        let files := List.filter has_gpx_suffix entries in
        process_batch files outputdir indentation concurrency m
    end.

(** The [try] block of [main], up to the [sys.exit(0)] that ends each
    branch. *)
Definition main_body (inputs : list Path) (output : option Path)
  (indentation : option Z) (concurrency : bool) : IO unit :=
  fun m =>
    if (List.length inputs =? 1)%nat && is_dir m (List.hd Path_dot inputs)
    then
      let inputdir := List.hd Path_dot inputs in
      let outputdir := or_default output (inputdir // "coordextract_output") in
      process_directory inputdir outputdir indentation concurrency m
    else if (List.length inputs =? 1)%nat
    then
      let inputfile := List.hd Path_dot inputs in
      process inputfile output indentation concurrency m
    else
      let outputdir := or_default output Path_dot in
      process_batch inputs outputdir indentation concurrency m.

(** [def main(...)]: exit status 0 after the work, exit status 1 and the
    message on the error stream for the exceptions of the [except]
    clause; any other exception leaves [main]. *)
Definition main (inputs : list Path) (output : option Path)
  (indentation : option Z) (concurrency : bool) (m : filesystem)
  : outcome * filesystem * list event :=
  match main_body inputs output indentation concurrency m with
  | (Ok _, m', evs) => (Exit 0, m', evs)
  | (Raise e, m', evs) =>
      if caught e then (Exit 1, m', evs ++ [EPrintErr e])
      else (Uncaught e, m', evs)
  end.



(** The single-file pipeline up to the text: what a task for [file]
    writes when it succeeds. *)
Definition json_of (file : Path) (indentation : option Z) : result string :=
  match fst (Builder.process_gpx_to_point_models async_parse_gpx latlon_to_mgrs
               (path_str file) []) with
  | Ok point_models => Ok (serialize point_models indentation)
  | Raise e => Raise e
  end.

End Orchestrator.

(** *** Reading the events *)

(** The per-file outputs of a run: output path and content. *)
Fixpoint written (evs : list event) : list (Path * string) :=
  match evs with
  | [] => []
  | EWrite p content :: rest => (p, content) :: written rest
  | _ :: rest => written rest
  end.

(** The tasks a run created, in order. *)
Fixpoint created (evs : list event) : list pc_call :=
  match evs with
  | [] => []
  | ECreateTask c :: rest => c :: created rest
  | _ :: rest => created rest
  end.

Definition is_mkdir (ev : event) : bool :=
  match ev with EMkdir _ => true | _ => false end.

(** The event belongs to a per-file task: its creation, its start, or
    something it does. *)
Definition is_task_event (ev : event) : bool :=
  match ev with
  | ECreateTask _ | ETaskStart _ _ | ELog _ | EWrite _ _ => true
  | EMkdir _ | EPrint _ | EPrintErr _ => false
  end.

(** Where the event is the start of a task, the task finds [d] to be a
    directory. *)
Definition starts_with_dir (d : Path) (ev : event) : bool :=
  match ev with
  | ETaskStart _ found => is_dir found d
  | _ => true
  end.

(** The entries of the file system directly inside [d]. *)
Definition entries_in (m : filesystem) (d : Path) : list Path :=
  List.filter (child_of d) (List.map fst (map_to_list m)).

(** A serializer for the worked examples: the grid references of the
    records, spaced when an indentation is given. *)
Definition demo_serialize (l : list Builder.PointModel) (indentation : option Z)
  : string :=
  match indentation with
  | Some _ => "[ " ++ String.concat ", " (List.map Builder.mgrs l) ++ " ]"
  | None => "[" ++ String.concat "," (List.map Builder.mgrs l) ++ "]"
  end.

(** A small tree for the worked examples: [/data] holds two track files,
    a text file, a subdirectory [sub.gpx] with a track file inside, and a
    subdirectory [old]. *)
Definition data : Path := mkPath "/" ["data"].

Definition demo_fs : filesystem :=
  <[ data := Dir ]>
  (<[ data // "demo.gpx" := File "<gpx/>" ]>
  (<[ data // "nan.gpx" := File "<gpx/>" ]>
  (<[ data // "notes.txt" := File "hello" ]>
  (<[ data // "sub.gpx" := Dir ]>
  (<[ data // "sub.gpx" // "inner.gpx" := File "<gpx/>" ]>
  (<[ data // "old" := Dir ]>
  (<[ data // "old" // "demo.gpx" := File "<gpx/>" ]> ∅))))))).

(** What a run printed on the standard output. *)
Fixpoint printed (evs : list event) : list string :=
  match evs with
  | [] => []
  | EPrint text :: rest => text :: printed rest
  | _ :: rest => printed rest
  end.

(** The exceptions a run reported on the error stream. *)
Fixpoint reported (evs : list event) : list exn :=
  match evs with
  | [] => []
  | EPrintErr e :: rest => e :: reported rest
  | _ :: rest => reported rest
  end.

(** The two branches of [main] that end in [process_batch]: one input
    that is a directory, or a number of inputs other than one. *)
Definition batch_mode (m : filesystem) (inputs : list Path) : bool :=
  negb (List.length inputs =? 1)%nat || is_dir m (List.hd Path_dot inputs).

(** The files these branches hand over: the selected entries of the
    directory, or the inputs as they are. *)
Definition batch_files (m : filesystem) (inputs : list Path) : list Path :=
  if (List.length inputs =? 1)%nat
  then List.filter has_gpx_suffix (entries_in m (List.hd Path_dot inputs))
  else inputs.

(** The destination these branches fall back on without an output
    option. *)
Definition default_destination (inputs : list Path) : Path :=
  if (List.length inputs =? 1)%nat
  then List.hd Path_dot inputs // "coordextract_output"
  else Path_dot.

(** A tree without track files for the worked examples: [/plain] holds a
    text file. *)
Definition plain : Path := mkPath "/" ["plain"].

Definition plain_fs : filesystem :=
  <[ plain := Dir ]> (<[ plain // "notes.txt" := File "hello" ]> ∅).

(** A tree with track files only for the worked examples: [/data] holds
    the two track files and the text file. *)
Definition tracks_fs : filesystem :=
  <[ data := Dir ]>
  (<[ data // "demo.gpx" := File "<gpx/>" ]>
  (<[ data // "nan.gpx" := File "<gpx/>" ]>
  (<[ data // "notes.txt" := File "hello" ]> ∅))).

End Cli.

(** ** Properties of the point assembler *)

Module BuilderFacts.
Import Builder.

(** Unfolding of the monad at a state. *)
Lemma bind_run {S A B} (m : M S A) (k : A -> M S B) (s : S) :
  bind m k s =
  match m s with
  | (Ok a, s') => k a s'
  | (Raise e, s') => (Raise e, s')
  end.
Proof. reflexivity. Qed.

Lemma skipped_nan_test (q : point) : skipped q = true <-> nan_test q = Ok true.
Proof.
  unfold skipped. destruct (nan_test q) as [[]|]; split; congruence.
Qed.

(** A skipped pair has a NaN float in it: its latitude, or its longitude
    behind a latitude that is a number. *)
Lemma skipped_has_nan (q : point) :
  skipped q = true <->
  (exists f, fst q = PyFloat f /\ PrimFloat.is_nan f = true) \/
  (exists f g, fst q = PyFloat f /\ PrimFloat.is_nan f = false /\
               snd q = PyFloat g /\ PrimFloat.is_nan g = true).
Proof.
  rewrite skipped_nan_test. destruct q as [[f|s] [g|t]]; unfold nan_test; simpl.
  - destruct (PrimFloat.is_nan f) eqn:Hf.
    + split; [intros _; left; eauto | reflexivity].
    + split.
      * intros H. right. exists f, g. repeat split; congruence.
      * intros [(f' & E & H) | (f' & g' & E1 & H1 & E2 & H2)]; congruence.
  - destruct (PrimFloat.is_nan f) eqn:Hf.
    + split; [intros _; left; eauto | reflexivity].
    + split; [discriminate |].
      intros [(f' & E & H) | (f' & g' & E1 & H1 & E2 & H2)]; congruence.
  - split; [discriminate |].
    intros [(f' & E & H) | (f' & g' & E1 & H1 & E2 & H2)]; congruence.
  - split; [discriminate |].
    intros [(f' & E & H) | (f' & g' & E1 & H1 & E2 & H2)]; congruence.
Qed.

Section Facts.

Variable async_parse_gpx : string -> result parsed.
Variable latlon_to_mgrs : pyval -> pyval -> result string.

(** The inner loop, when it returns: the records it appended stand for
    the kept pairs, in order, and the log grew by one record per skipped
    pair. *)
Lemma points_loop_ok (ty : string) (points : list point) :
  forall acc log out log',
    points_loop latlon_to_mgrs ty points acc log = (Ok out, log') ->
    exists new,
      out = acc ++ new /\
      List.map coords new = List.filter kept points /\
      Forall (built_for latlon_to_mgrs ty) new /\
      log' = log ++ diagnostics points.
Proof.
  induction points as [|[la lo] rest IH]; intros acc log out log' H.
  - inversion H; subst. exists []. unfold diagnostics; simpl.
    rewrite !app_nil_r. auto.
  - cbn [points_loop] in H. rewrite bind_run in H. unfold lift in H.
    unfold diagnostics, kept, skipped. cbn [List.filter].
    destruct (nan_test (la, lo)) as [[|]|e]; [| |discriminate].
    + rewrite bind_run in H. unfold logging_error in H.
      apply IH in H as (new & -> & Hc & Hb & ->).
      exists new. repeat split; auto.
      cbn [List.map fst snd]. rewrite <- app_assoc. reflexivity.
    + rewrite bind_run in H.
      destruct (latlon_to_mgrs la lo) as [m|e] eqn:Hm; [|discriminate].
      apply IH in H as (new & -> & Hc & Hb & ->).
      eexists (_ :: new). rewrite <- app_assoc. repeat split; auto.
      * cbn [List.map coords latitude longitude]. f_equal. exact Hc.
      * constructor; [|exact Hb]. repeat split; auto.
Qed.


(** When every pair is skipped the inner loop returns what it was given. *)
Lemma points_loop_all_skipped (ty : string) (points : list point) :
  forall acc log,
    Forall (fun q => skipped q = true) points ->
    points_loop latlon_to_mgrs ty points acc log =
    (Ok acc, log ++ diagnostics points).
Proof.
  induction points as [|[la lo] rest IH]; intros acc log Hall.
  - unfold diagnostics; simpl. rewrite app_nil_r. reflexivity.
  - inversion Hall as [|? ? Hq Hrest]; subst.
    cbn [points_loop]. rewrite bind_run. unfold lift.
    unfold diagnostics. cbn [List.filter]. rewrite Hq.
    apply skipped_nan_test in Hq. rewrite Hq.
    rewrite bind_run. unfold logging_error. rewrite IH by exact Hrest.
    cbn [List.map fst snd]. rewrite <- app_assoc. reflexivity.
Qed.

(** The three passes of [assemble], when it returns. *)
Lemma assemble_ok (w t r : list point) (log : list log_record)
  (out : list PointModel) (log' : list log_record) :
  assemble latlon_to_mgrs (w, t, r) log = (Ok out, log') ->
  exists ws ts rs,
    out = ws ++ ts ++ rs /\
    (List.map coords ws = List.filter kept w /\ Forall (built_for latlon_to_mgrs "waypoint") ws) /\
    (List.map coords ts = List.filter kept t /\ Forall (built_for latlon_to_mgrs "trackpoint") ts) /\
    (List.map coords rs = List.filter kept r /\ Forall (built_for latlon_to_mgrs "routepoint") rs) /\
    log' = log ++ diagnostics (w ++ t ++ r).
Proof.
  unfold assemble, points_with_types. cbn [types_loop]. intros H.
  rewrite bind_run in H.
  destruct (points_loop latlon_to_mgrs "waypoint" w [] log) as [[o1|e] l1] eqn:H1;
    [|discriminate].
  rewrite bind_run in H.
  destruct (points_loop latlon_to_mgrs "trackpoint" t o1 l1) as [[o2|e] l2] eqn:H2;
    [|discriminate].
  rewrite bind_run in H.
  destruct (points_loop latlon_to_mgrs "routepoint" r o2 l2) as [[o3|e] l3] eqn:H3;
    [|discriminate].
  inversion H; subst.
  apply points_loop_ok in H1 as (ws & -> & Hw1 & Hw2 & ->).
  apply points_loop_ok in H2 as (ts & -> & Ht1 & Ht2 & ->).
  apply points_loop_ok in H3 as (rs & -> & Hr1 & Hr2 & ->).
  exists ws, ts, rs. simpl. rewrite <- !app_assoc. repeat split; auto.
  unfold diagnostics. rewrite !List.filter_app, !List.map_app. reflexivity.
Qed.


Lemma assemble_all_skipped (p : parsed) (log : list log_record) :
  Forall (fun q => skipped q = true) (all_points p) ->
  assemble latlon_to_mgrs p log = (Ok [], log ++ diagnostics (all_points p)).
Proof.
  destruct p as [[w t] r]. unfold all_points. intros H.
  apply Forall_app in H as [Hw H]. apply Forall_app in H as [Ht Hr].
  unfold assemble, points_with_types. cbn [types_loop].
  rewrite bind_run, points_loop_all_skipped by exact Hw.
  rewrite bind_run, points_loop_all_skipped by exact Ht.
  rewrite bind_run, points_loop_all_skipped by exact Hr.
  unfold ret, diagnostics.
  rewrite !List.filter_app, !List.map_app, <- !app_assoc. reflexivity.
Qed.

(** Once the parser has answered, the function is the assembly. *)
Lemma process_after_parse (path : string) (p : parsed) (log : list log_record) :
  async_parse_gpx path = Ok p ->
  process_gpx_to_point_models async_parse_gpx latlon_to_mgrs path log =
  assemble latlon_to_mgrs p log.
Proof.
  intros H. unfold process_gpx_to_point_models. rewrite bind_run.
  unfold lift. rewrite H. reflexivity.
Qed.

End Facts.

End BuilderFacts.

(** ** The assembler: failures, accounting, and what a record holds *)

Module AssemblerErrors.
Import Builder BuilderFacts.

Lemma diagnostics_app (a b : list point) :
  diagnostics (a ++ b) = diagnostics a ++ diagnostics b.
Proof. unfold diagnostics. now rewrite List.filter_app, List.map_app. Qed.

Lemma pair_error_none_cases (conv : pyval -> pyval -> result string) (q : point) :
  pair_error conv q = None ->
  (skipped q = true /\ kept q = false) \/
  (skipped q = false /\ kept q = true /\ exists s, conv (fst q) (snd q) = Ok s).
Proof.
  unfold pair_error, skipped, kept. destruct (nan_test q) as [[|]|e].
  - auto.
  - destruct (conv (fst q) (snd q)) as [s|e]; [|discriminate]. eauto.
  - discriminate.
Qed.

(** A kept pair is two floats, neither of them NaN. *)
Lemma kept_floats (q : point) :
  kept q = true ->
  exists f g, q = (PyFloat f, PyFloat g) /\
              PrimFloat.is_nan f = false /\ PrimFloat.is_nan g = false.
Proof.
  destruct q as [[f|s] [g|t]]; unfold kept, nan_test; simpl;
    try discriminate.
  - destruct (PrimFloat.is_nan f) eqn:Hf; [discriminate|].
    destruct (PrimFloat.is_nan g) eqn:Hg; [discriminate|]. eauto.
  - destruct (PrimFloat.is_nan f); discriminate.
Qed.

Lemma first_error_app (conv : pyval -> pyval -> result string)
  (a b : list point) :
  first_error conv (a ++ b)
  = match first_error conv a with
    | Some e => Some e
    | None => first_error conv b
    end.
Proof.
  induction a as [|q a IH]; [reflexivity|]. simpl.
  destruct (pair_error conv q); [reflexivity | exact IH].
Qed.

Lemma before_error_app (conv : pyval -> pyval -> result string)
  (a b : list point) :
  before_error conv (a ++ b)
  = match first_error conv a with
    | Some _ => before_error conv a
    | None => a ++ before_error conv b
    end.
Proof.
  induction a as [|q a IH]; [reflexivity|]. simpl.
  destruct (pair_error conv q); [reflexivity|]. rewrite IH.
  destruct (first_error conv a); reflexivity.
Qed.

Lemma first_error_none (conv : pyval -> pyval -> result string)
  (points : list point) :
  first_error conv points = None <->
  Forall (fun q => pair_error conv q = None) points.
Proof.
  induction points as [|q rest IH]; simpl.
  - split; auto.
  - destruct (pair_error conv q) eqn:E.
    + split; [discriminate|]. intros H. inversion H; congruence.
    + rewrite IH. split; [intros H; constructor; auto|].
      intros H. inversion H; auto.
Qed.

(** The first pair that raises, found by position. *)
Lemma first_error_at (conv : pyval -> pyval -> result string)
  (pre post : list point) (q : point) (e : exn) :
  Forall (fun x => pair_error conv x = None) pre ->
  pair_error conv q = Some e ->
  first_error conv (pre ++ q :: post) = Some e /\
  before_error conv (pre ++ q :: post) = pre.
Proof.
  intros Hpre Hq. induction Hpre as [|x pre Hx Hpre IH]; simpl.
  - rewrite Hq. auto.
  - rewrite Hx. destruct IH as [-> ->]. auto.
Qed.

Section Runs.

Variable async_parse_gpx : string -> result parsed.
Variable latlon_to_mgrs : pyval -> pyval -> result string.

(** The inner loop stops at the first pair that raises; the log then
    holds the records of the pairs skipped in front of it. *)
Lemma points_loop_raises (ty : string) (points : list point) :
  forall acc log e,
    first_error latlon_to_mgrs points = Some e ->
    points_loop latlon_to_mgrs ty points acc log
    = (Raise e, log ++ diagnostics (before_error latlon_to_mgrs points)).
Proof.
  induction points as [|[la lo] rest IH]; intros acc log e H; [discriminate|].
  cbn [first_error before_error] in *. unfold pair_error in *.
  cbn [points_loop fst snd] in *. rewrite bind_run. unfold lift.
  destruct (nan_test (la, lo)) as [[|]|e'] eqn:Hn.
  - rewrite bind_run. unfold logging_error. rewrite (IH _ _ _ H).
    unfold diagnostics at 2. cbn [List.filter]. unfold skipped at 1.
    rewrite Hn. cbn [List.map fst snd]. fold (diagnostics
      (before_error latlon_to_mgrs rest)).
    rewrite <- app_assoc. reflexivity.
  - rewrite bind_run. destruct (latlon_to_mgrs la lo) as [s|e'] eqn:Hc.
    + rewrite (IH _ _ _ H). unfold diagnostics at 2. cbn [List.filter].
      unfold skipped at 1. rewrite Hn. reflexivity.
    + inversion H; subst. unfold diagnostics; simpl. now rewrite app_nil_r.
  - inversion H; subst. unfold diagnostics; simpl. now rewrite app_nil_r.
Qed.

(** It comes to its end when no pair raises. *)
Lemma points_loop_returns (ty : string) (points : list point) :
  forall acc log,
    first_error latlon_to_mgrs points = None ->
    exists new,
      points_loop latlon_to_mgrs ty points acc log
      = (Ok (acc ++ new), log ++ diagnostics points).
Proof.
  induction points as [|[la lo] rest IH]; intros acc log H.
  - exists []. unfold diagnostics; simpl. now rewrite !app_nil_r.
  - cbn [first_error] in H. unfold pair_error in H. cbn [fst snd] in H.
    cbn [points_loop]. rewrite bind_run. unfold lift.
    unfold diagnostics. cbn [List.filter]. unfold skipped at 1.
    destruct (nan_test (la, lo)) as [[|]|e'] eqn:Hn; [| |discriminate].
    + rewrite bind_run. unfold logging_error.
      destruct (IH acc (log ++ [skip_record la lo]) H) as [new ->].
      exists new. cbn [List.map fst snd]. unfold diagnostics.
      rewrite <- app_assoc. reflexivity.
    + rewrite bind_run. destruct (latlon_to_mgrs la lo) as [s|e']; [|discriminate].
      destruct (IH (acc ++ [mkPointModel None ty la lo s]) log H) as [new ->].
      eexists (_ :: new). rewrite <- app_assoc. reflexivity.
Qed.

Lemma assemble_raises (p : parsed) (log : list log_record) (e : exn) :
  first_error latlon_to_mgrs (all_points p) = Some e ->
  assemble latlon_to_mgrs p log
  = (Raise e, log ++ diagnostics (before_error latlon_to_mgrs (all_points p))).
Proof.
  destruct p as [[w t] r]. unfold all_points, assemble, points_with_types.
  cbn [types_loop]. rewrite !first_error_app, !before_error_app. intros H.
  rewrite bind_run.
  destruct (first_error latlon_to_mgrs w) as [ew|] eqn:Hw.
  - inversion H; subst. now rewrite (points_loop_raises _ _ _ _ _ Hw).
  - destruct (points_loop_returns "waypoint" w [] log Hw) as [ws ->].
    rewrite bind_run.
    destruct (first_error latlon_to_mgrs t) as [et|] eqn:Ht.
    + inversion H; subst. rewrite (points_loop_raises _ _ _ _ _ Ht).
      now rewrite diagnostics_app, app_assoc.
    + destruct (points_loop_returns "trackpoint" t ([] ++ ws)
                  (log ++ diagnostics w) Ht) as [ts ->].
      rewrite bind_run, (points_loop_raises _ _ _ _ _ H).
      now rewrite !diagnostics_app, !app_assoc.
Qed.

Lemma assemble_returns (p : parsed) (log : list log_record) :
  first_error latlon_to_mgrs (all_points p) = None ->
  exists out,
    assemble latlon_to_mgrs p log = (Ok out, log ++ diagnostics (all_points p)).
Proof.
  destruct p as [[w t] r]. unfold all_points, assemble, points_with_types.
  cbn [types_loop]. rewrite !first_error_app. intros H.
  destruct (first_error latlon_to_mgrs w) eqn:Hw; [discriminate|].
  destruct (first_error latlon_to_mgrs t) eqn:Ht; [discriminate|].
  rewrite bind_run.
  destruct (points_loop_returns "waypoint" w [] log Hw) as [ws ->].
  rewrite bind_run.
  destruct (points_loop_returns "trackpoint" t ([] ++ ws)
              (log ++ diagnostics w) Ht) as [ts ->].
  rewrite bind_run.
  destruct (points_loop_returns "routepoint" r (([] ++ ws) ++ ts)
              ((log ++ diagnostics w) ++ diagnostics t) H) as [rs ->].
  eexists. unfold ret. rewrite !diagnostics_app, !app_assoc. reflexivity.
Qed.

(** Every pair that does not raise is either kept or skipped. *)
Lemma kept_or_skipped_count (points : list point) :
  Forall (fun q => pair_error latlon_to_mgrs q = None) points ->
  List.length (List.filter kept points)
  + List.length (List.filter skipped points)
  = List.length points.
Proof.
  induction 1 as [|q rest Hq _ IH]; [reflexivity|]. cbn [List.filter].
  destruct (pair_error_none_cases _ _ Hq) as [[-> ->] | (-> & -> & _)];
    simpl; lia.
Qed.

End Runs.







End AssemblerErrors.
(** ** Properties of paths and of the file system *)

Module PathlibFacts.

Lemma substring_whole (s : string) : String.substring 0 (String.length s) s = s.
Proof. induction s as [|c s IH]; simpl; [reflexivity | now rewrite IH]. Qed.

Lemma substring_nothing (s : string) : String.substring 0 0 s = "".
Proof. destruct s; reflexivity. Qed.

(** [s[:i] + s[i:] == s] *)
Lemma substring_split (s : string) :
  forall i, i <= String.length s ->
    (String.substring 0 i s ++ String.substring i (String.length s - i) s)%string = s.
Proof.
  induction s as [|c s IH]; intros i Hi.
  - destruct i; reflexivity.
  - destruct i as [|i].
    + rewrite substring_nothing, Nat.sub_0_r, substring_whole. reflexivity.
    + simpl in Hi. simpl.
      transitivity
        (String c (String.substring 0 i s
                   ++ String.substring i (String.length s - i) s)%string);
        [reflexivity | f_equal; apply IH; lia].
Qed.

Lemma string_app_nil_r (s : string) : (s ++ "")%string = s.
Proof.
  induction s as [|c s IH]; [reflexivity|].
  change (String c (s ++ "")%string = String c s). now rewrite IH.
Qed.

Lemma suffix_index_bound (n : string) (i : nat) :
  suffix_index n = Some i -> 0 < i < String.length n - 1.
Proof.
  unfold suffix_index. destruct (rfind "." n) as [j|]; [|discriminate].
  destruct (0 <? j)%nat eqn:H0; [|discriminate].
  destruct (j <? String.length n - 1)%nat eqn:H1; [|discriminate].
  simpl. intros E; inversion E; subst.
  apply Nat.ltb_lt in H0, H1. lia.
Qed.

(** The stem and the suffix make up the name. *)
Lemma stem_suffix (p : Path) : (stem p ++ suffix p)%string = name p.
Proof.
  unfold stem, suffix. destruct (suffix_index (name p)) as [i|] eqn:E.
  - apply suffix_index_bound in E. apply substring_split. lia.
  - apply string_app_nil_r.
Qed.

Lemma gpx_name (p : Path) : suffix p = ".gpx" -> name p = (stem p ++ ".gpx")%string.
Proof. intros H. rewrite <- H. symmetry. apply stem_suffix. Qed.

Lemma string_app_to_list (s t : string) :
  list_ascii_of_string (s ++ t)%string
  = list_ascii_of_string s ++ list_ascii_of_string t.
Proof.
  induction s as [|c s IH]; [reflexivity|].
  change (c :: list_ascii_of_string (s ++ t)%string
          = c :: (list_ascii_of_string s ++ list_ascii_of_string t)).
  now rewrite IH.
Qed.

Lemma string_app_inv_tail (s1 s2 t : string) :
  (s1 ++ t)%string = (s2 ++ t)%string -> s1 = s2.
Proof.
  intros H. apply (f_equal list_ascii_of_string) in H.
  rewrite !string_app_to_list in H. apply List.app_inv_tail in H.
  rewrite <- (string_of_list_ascii_of_string s1),
          <- (string_of_list_ascii_of_string s2).
  now rewrite H.
Qed.

(** [d / a == d / b] only for [a == b]. *)
Lemma truediv_inj (d : Path) (a b : string) : d // a = d // b -> a = b.
Proof.
  unfold truediv. intros H. inversion H as [H1].
  apply List.app_inv_head in H1. congruence.
Qed.

(** An entry directly inside [d] is [d / name]. *)
Lemma child_of_spec (d q : Path) :
  child_of d q = true <-> segments q <> [] /\ parent q = d.
Proof. unfold child_of. rewrite bool_decide_eq_true. reflexivity. Qed.

Lemma child_is_truediv (d q : Path) : child_of d q = true -> q = d // name q.
Proof.
  rewrite child_of_spec. intros [Hne <-]. destruct q as [a segs].
  unfold truediv, parent, name; simpl in *. f_equal.
  apply List.app_removelast_last. exact Hne.
Qed.

Lemma parent_truediv (d : Path) (s : string) : parent (d // s) = d.
Proof.
  destruct d as [a segs]. unfold parent, truediv; simpl.
  now rewrite List.removelast_last.
Qed.

(** Two entries of one directory with the suffix [.gpx] and the same
    stem are the same entry. *)
Lemma gpx_children_stem_inj (d q1 q2 : Path) :
  child_of d q1 = true -> child_of d q2 = true ->
  suffix q1 = ".gpx" -> suffix q2 = ".gpx" ->
  stem q1 = stem q2 -> q1 = q2.
Proof.
  intros C1 C2 S1 S2 E.
  rewrite (child_is_truediv _ _ C1), (child_is_truediv _ _ C2).
  rewrite (gpx_name _ S1), (gpx_name _ S2), E. reflexivity.
Qed.

Lemma entries_NoDup (m : filesystem) (d : Path) :
  List.NoDup (List.filter (child_of d) (List.map fst (map_to_list m))).
Proof.
  apply List.NoDup_filter. apply NoDup_ListNoDup, NoDup_fst_map_to_list.
Qed.

Lemma entries_spec (m : filesystem) (d q : Path) :
  In q (List.filter (child_of d) (List.map fst (map_to_list m))) <->
  is_Some (m !! q) /\ child_of d q = true.
Proof.
  rewrite List.filter_In, List.in_map_iff. split.
  - intros [([q' e] & <- & Hin) Hc]. split; [|exact Hc].
    apply list_elem_of_In, elem_of_map_to_list in Hin. simpl. eauto.
  - intros [[e He] Hc]. split; [|exact Hc].
    exists (q, e). split; [reflexivity|].
    apply list_elem_of_In, elem_of_map_to_list. exact He.
Qed.

Lemma mkdir_step_raise (a : string) (e : exn) (l : list (list string)) :
  List.fold_left (mkdir_step a) l (Raise e) = Raise e.
Proof. induction l; simpl; auto. Qed.

Lemma mkdir_fold (a : string) (segs : list string) :
  forall done m m',
    List.fold_left (mkdir_step a) (prefixes done segs) (Ok m) = Ok m' ->
    (segs <> [] -> m' !! mkPath a (done ++ segs) = Some Dir) /\
    (forall q, m !! q = Some Dir -> m' !! q = Some Dir) /\
    (forall q, List.length (done ++ segs) < List.length (segments q) ->
               m' !! q = m !! q).
Proof.
  induction segs as [|s rest IH]; intros done m m' H.
  - simpl in H. inversion H; subst. split; [congruence | auto].
  - cbn [prefixes List.fold_left] in H.
    assert (exists m1, mkdir_step a (Ok m) (done ++ [s]) = Ok m1 /\
                       m1 !! mkPath a (done ++ [s]) = Some Dir /\
                       (forall q, m !! q = Some Dir -> m1 !! q = Some Dir) /\
                       (forall q, List.length (done ++ [s]) < List.length (segments q) ->
                                  m1 !! q = m !! q))
      as (m1 & E & Hd & Hk & Hl).
    { unfold mkdir_step.
      destruct (m !! mkPath a (done ++ [s])) as [[|c]|] eqn:L.
      - exists m. auto.
      - assert (mkdir_step a (Ok m) (done ++ [s]) = Raise OSError) as E
          by (unfold mkdir_step; rewrite L; reflexivity).
        rewrite E, mkdir_step_raise in H. discriminate.
      - eexists. split; [reflexivity|]. split; [|split].
        + apply lookup_insert_eq.
        + intros q Hq. rewrite lookup_insert_ne; [exact Hq | congruence].
        + intros q Hq. rewrite lookup_insert_ne; [reflexivity|].
          intros <-. simpl in Hq. lia. }
    rewrite E in H. apply IH in H as (H1 & H2 & H3).
    split; [|split].
    + intros _. destruct rest as [|s' rest'].
      * apply H2. exact Hd.
      * replace (done ++ s :: s' :: rest') with ((done ++ [s]) ++ s' :: rest')
          by (rewrite <- app_assoc; reflexivity).
        apply H1. discriminate.
    + intros q Hq. apply H2, Hk, Hq.
    + intros q Hq. rewrite H3, Hl; [reflexivity| |];
        rewrite ?length_app in *; simpl in *; lia.
Qed.

(** After a successful [mkdir(parents=True, exist_ok=True)] the path is a
    directory, and what was a directory still is one. *)
Lemma mkdir_parents_is_dir (m m' : filesystem) (p : Path) :
  mkdir_parents m p = Ok m' -> is_dir m' p = true.
Proof.
  unfold mkdir_parents, is_dir. intros H.
  destruct p as [a segs]. simpl in *. destruct segs as [|s rest]; [reflexivity|].
  apply mkdir_fold in H as (H & _). simpl in H. rewrite H by discriminate.
  reflexivity.
Qed.

(** It creates nothing below the path. *)
Lemma mkdir_parents_below (m m' : filesystem) (p : Path) (s : string) :
  mkdir_parents m p = Ok m' -> m' !! (p // s) = m !! (p // s).
Proof.
  unfold mkdir_parents. intros H. apply mkdir_fold in H as (_ & _ & H).
  apply H. unfold truediv; simpl. rewrite length_app; simpl. lia.
Qed.

Lemma mkdir_dot (m : filesystem) : mkdir_parents m Path_dot = Ok m.
Proof. reflexivity. Qed.

(** Writing a file removes no directory. *)
Lemma write_file_keeps_dir (m m' : filesystem) (p d : Path) (content : string) :
  write_file m p content = Ok m' -> is_dir m d = true -> is_dir m' d = true.
Proof.
  unfold write_file. destruct (is_dir m p) eqn:Hp; [discriminate|].
  destruct (is_dir m (parent p)); [|discriminate].
  intros E Hd; inversion E; subst. unfold is_dir in *.
  destruct (segments d) eqn:Hs; [reflexivity|].
  rewrite lookup_insert_ne; [exact Hd|].
  intros ->. rewrite Hs in Hp. congruence.
Qed.

(** Writing a file makes no directory. *)
Lemma write_file_no_new_dir (m m' : filesystem) (p q : Path) (content : string) :
  write_file m p content = Ok m' -> m' !! q = Some Dir -> m !! q = Some Dir.
Proof.
  unfold write_file. destruct (is_dir m p); [discriminate|].
  destruct (is_dir m (parent p)); [|discriminate].
  intros E; inversion E; subst. intros H.
  destruct (decide (p = q)) as [->|Hne].
  - rewrite lookup_insert_eq in H. discriminate.
  - rewrite lookup_insert_ne in H by exact Hne. exact H.
Qed.

(** A file can be written into an existing directory wherever no
    directory is in the way. *)
Lemma write_file_succeeds (m : filesystem) (d : Path) (s content : string) :
  is_dir m d = true -> m !! (d // s) <> Some Dir ->
  write_file m (d // s) content = Ok (<[d // s := File content]> m).
Proof.
  intros Hd Hn. unfold write_file. rewrite parent_truediv, Hd.
  assert (is_dir m (d // s) = false) as ->; [|reflexivity].
  unfold is_dir. simpl. destruct (segments d ++ [s]) eqn:E.
  - destruct (segments d); discriminate.
  - fold (d // s) in *. destruct (m !! (d // s)) as [[|c]|]; congruence.
Qed.

End PathlibFacts.

(** ** Properties of the orchestrator *)

Module CliFacts.
Import Cli PathlibFacts.

Lemma io_bind_run {A B} (x : IO A) (k : A -> IO B) (m : filesystem) :
  io_bind x k m =
  match x m with
  | (Ok a, m1, evs1) => let '(r, m2, evs2) := k a m1 in (r, m2, evs1 ++ evs2)
  | (Raise e, m1, evs1) => (Raise e, m1, evs1)
  end.
Proof. reflexivity. Qed.

Lemma result_of_triple {R} (r : R) (m : filesystem) (evs : list event) :
  result_of (r, m, evs) = r.
Proof. reflexivity. Qed.

Lemma fs_of_triple {R} (r : R) (m : filesystem) (evs : list event) :
  fs_of (r, m, evs) = m.
Proof. reflexivity. Qed.

Lemma events_of_triple {R} (r : R) (m : filesystem) (evs : list event) :
  events_of (r, m, evs) = evs.
Proof. reflexivity. Qed.

Ltac triples := rewrite ?result_of_triple, ?fs_of_triple, ?events_of_triple.

Lemma written_app (a b : list event) : written (a ++ b) = written a ++ written b.
Proof.
  induction a as [|ev a IH]; [reflexivity|].
  destruct ev; simpl; rewrite IH; reflexivity.
Qed.

Lemma created_app (a b : list event) : created (a ++ b) = created a ++ created b.
Proof.
  induction a as [|ev a IH]; [reflexivity|].
  destruct ev; simpl; rewrite IH; reflexivity.
Qed.

Lemma written_logs (log : list Builder.log_record) : written (List.map ELog log) = [].
Proof. induction log; simpl; auto. Qed.

Lemma created_logs (log : list Builder.log_record) : created (List.map ELog log) = [].
Proof. induction log; simpl; auto. Qed.

Lemma written_created (cs : list pc_call) : written (List.map ECreateTask cs) = [].
Proof. induction cs; simpl; auto. Qed.

Lemma created_created (cs : list pc_call) : created (List.map ECreateTask cs) = cs.
Proof. induction cs; simpl; congruence. Qed.

Lemma forallb_logs (P : event -> bool) (log : list Builder.log_record) :
  (forall r, P (ELog r) = true) -> List.forallb P (List.map ELog log) = true.
Proof. intros H. induction log; simpl; [reflexivity | now rewrite H]. Qed.

Lemma forallb_created (P : event -> bool) (cs : list pc_call) :
  (forall c, P (ECreateTask c) = true) ->
  List.forallb P (List.map ECreateTask cs) = true.
Proof. intros H. induction cs; simpl; [reflexivity | now rewrite H]. Qed.

Lemma no_mkdir_filter (evs : list event) :
  List.forallb (fun ev => negb (is_mkdir ev)) evs = true ->
  List.filter is_mkdir evs = [].
Proof.
  induction evs as [|ev evs IH]; [reflexivity|]. simpl.
  destruct (is_mkdir ev); simpl; [discriminate | exact IH].
Qed.

Lemma string_length_app (s t : string) :
  String.length (s ++ t)%string = String.length s + String.length t.
Proof.
  induction s as [|a s IH]; [reflexivity|].
  change (S (String.length (s ++ t)%string)
          = S (String.length s + String.length t)).
  now rewrite IH.
Qed.

Lemma substring_app_front (s t : string) :
  String.substring 0 (String.length s) (s ++ t)%string = s.
Proof.
  induction s as [|a s IH]; [apply substring_nothing|].
  change (String a (String.substring 0 (String.length s) (s ++ t)%string)
          = String a s).
  now rewrite IH.
Qed.

Lemma substring_app_back (s t : string) :
  String.substring (String.length s) (String.length t) (s ++ t)%string = t.
Proof.
  induction s as [|a s IH]; [apply substring_whole|].
  change (String.substring (String.length s) (String.length t) (s ++ t)%string
          = t).
  exact IH.
Qed.

(** The last dot of [s + ".gpx"] is the one of the suffix. *)
Lemma rfind_gpx (s : string) :
  rfind "." (s ++ ".gpx")%string = Some (String.length s).
Proof.
  induction s as [|a s IH]; [reflexivity|].
  change (match rfind "." (s ++ ".gpx")%string with
          | Some i => Some (S i)
          | None => if Ascii.eqb a "." then Some 0 else None
          end = Some (S (String.length s))).
  now rewrite IH.
Qed.

Lemma suffix_index_gpx (s : string) :
  s <> "" ->
  suffix_index (s ++ ".gpx")%string = Some (String.length s).
Proof.
  intros Hs. unfold suffix_index. rewrite rfind_gpx, string_length_app.
  assert (0 < String.length s) as Hlen by (destruct s; [congruence | simpl; lia]).
  destruct (Nat.ltb_spec 0 (String.length s)) as [_|]; [|lia].
  change (String.length ".gpx") with 4.
  destruct (Nat.ltb_spec (String.length s) (String.length s + 4 - 1)) as [_|];
    [reflexivity | lia].
Qed.

Lemma printed_app (a b : list event) : printed (a ++ b) = printed a ++ printed b.
Proof.
  induction a as [|ev a IH]; [reflexivity|].
  destruct ev; simpl; rewrite IH; reflexivity.
Qed.

Lemma reported_app (a b : list event) :
  reported (a ++ b) = reported a ++ reported b.
Proof.
  induction a as [|ev a IH]; [reflexivity|].
  destruct ev; simpl; rewrite IH; reflexivity.
Qed.

Lemma printed_logs (log : list Builder.log_record) : printed (List.map ELog log) = [].
Proof. induction log; simpl; auto. Qed.

Lemma reported_logs (log : list Builder.log_record) :
  reported (List.map ELog log) = [].
Proof. induction log; simpl; auto. Qed.

Lemma printed_created (cs : list pc_call) : printed (List.map ECreateTask cs) = [].
Proof. induction cs; simpl; auto. Qed.

Lemma filter_mkdir_logs (log : list Builder.log_record) :
  List.filter is_mkdir (List.map ELog log) = [].
Proof. induction log; simpl; auto. Qed.

(** [mkdir] fails with [OSError] and with nothing else. *)
Lemma mkdir_raises_oserror (m : filesystem) (p : Path) (e : exn) :
  mkdir_parents m p = Raise e -> e = OSError.
Proof.
  unfold mkdir_parents. generalize (prefixes [] (segments p)). intros l.
  revert m. induction l as [|q l IH]; intros m; [discriminate|].
  cbn [List.fold_left]. unfold mkdir_step at 2.
  destruct (m !! mkPath (anchor p) q) as [[|content]|].
  - apply IH.
  - rewrite mkdir_step_raise. congruence.
  - apply IH.
Qed.

(** [mkdir] removes no entry and no directory. *)
Lemma mkdir_keeps (m m' : filesystem) (p : Path) :
  mkdir_parents m p = Ok m' ->
  (forall q, is_Some (m !! q) -> is_Some (m' !! q)) /\
  (forall d, is_dir m d = true -> is_dir m' d = true).
Proof.
  unfold mkdir_parents. generalize (prefixes [] (segments p)). intros l.
  revert m. induction l as [|q l IH]; intros m H.
  - inversion H; subst. auto.
  - cbn [List.fold_left] in H. unfold mkdir_step at 2 in H.
    destruct (m !! mkPath (anchor p) q) as [[|content]|] eqn:L.
    + apply IH. exact H.
    + rewrite mkdir_step_raise in H. discriminate.
    + apply IH in H as [H1 H2]. split.
      * intros x Hx. apply H1.
        destruct (decide (mkPath (anchor p) q = x)) as [<-|Hne].
        -- rewrite lookup_insert_eq. eauto.
        -- rewrite lookup_insert_ne by exact Hne. exact Hx.
      * intros d Hd. apply H2. unfold is_dir in *.
        destruct (segments d); [reflexivity|].
        destruct (decide (mkPath (anchor p) q = d)) as [<-|Hne].
        -- rewrite lookup_insert_eq. reflexivity.
        -- rewrite lookup_insert_ne by exact Hne. exact Hd.
Qed.

Lemma write_file_keeps (m m' : filesystem) (p q : Path) (content : string) :
  write_file m p content = Ok m' -> is_Some (m !! q) -> is_Some (m' !! q).
Proof.
  unfold write_file. destruct (is_dir m p); [discriminate|].
  destruct (is_dir m (parent p)); [|discriminate].
  intros E; inversion E; subst. intros Hq.
  destruct (decide (p = q)) as [<-|Hne].
  - rewrite lookup_insert_eq. eauto.
  - rewrite lookup_insert_ne by exact Hne. exact Hq.
Qed.

(** [mkdir] leaves every existing entry as it is. *)
Lemma mkdir_existing_unchanged (m m' : filesystem) (p q : Path) :
  mkdir_parents m p = Ok m' -> is_Some (m !! q) -> m' !! q = m !! q.
Proof.
  unfold mkdir_parents. generalize (prefixes [] (segments p)). intros l.
  revert m. induction l as [|x l IH]; intros m H Hq.
  - inversion H; subst. reflexivity.
  - cbn [List.fold_left] in H. unfold mkdir_step at 2 in H.
    destruct (m !! mkPath (anchor p) x) as [[|content]|] eqn:L.
    + apply IH; assumption.
    + rewrite mkdir_step_raise in H. discriminate.
    + assert (mkPath (anchor p) x <> q) as Hne
        by (intros E; subst q; rewrite L in Hq; destruct Hq; discriminate).
      rewrite (IH _ H).
      * apply lookup_insert_ne. exact Hne.
      * rewrite lookup_insert_ne by exact Hne. exact Hq.
Qed.

Lemma write_file_elsewhere (m m' : filesystem) (p q : Path) (content : string) :
  write_file m p content = Ok m' -> p <> q -> m' !! q = m !! q.
Proof.
  unfold write_file. destruct (is_dir m p); [discriminate|].
  destruct (is_dir m (parent p)); [|discriminate].
  intros E Hne; inversion E; subst. apply lookup_insert_ne. exact Hne.
Qed.

Lemma write_file_there (m m' : filesystem) (p : Path) (content : string) :
  write_file m p content = Ok m' -> m' !! p = Some (File content).
Proof.
  unfold write_file. destruct (is_dir m p); [discriminate|].
  destruct (is_dir m (parent p)); [|discriminate].
  intros E; inversion E; subst. apply lookup_insert_eq.
Qed.

Lemma name_truediv (d : Path) (s : string) : name (d // s) = s.
Proof. unfold name, truediv; simpl. apply List.last_last. Qed.

(** A name that ends in [.json] does not end in [.gpx]. *)
Lemma json_name_is_no_gpx_name (s1 s2 : string) :
  (s1 ++ ".json")%string <> (s2 ++ ".gpx")%string.
Proof.
  intros H. apply (f_equal list_ascii_of_string) in H.
  rewrite !string_app_to_list in H.
  change (list_ascii_of_string ".json")
    with (list_ascii_of_string ".jso" ++ ["n"%char]) in H.
  change (list_ascii_of_string ".gpx")
    with (list_ascii_of_string ".gp" ++ ["x"%char]) in H.
  rewrite !app_assoc in H. apply List.app_inj_tail in H as [_ H].
  discriminate H.
Qed.

Lemma write_file_same_dirs (m m' : filesystem) (p d : Path) (content : string) :
  write_file m p content = Ok m' -> is_dir m' d = is_dir m d.
Proof.
  unfold write_file. destruct (is_dir m p) eqn:Hp; [discriminate|].
  destruct (is_dir m (parent p)); [|discriminate].
  intros E; inversion E; subst. unfold is_dir in *.
  destruct (segments d) eqn:Hs; [reflexivity|].
  destruct (decide (p = d)) as [->|Hne].
  - rewrite lookup_insert_eq. rewrite Hs in Hp. now rewrite Hp.
  - now rewrite lookup_insert_ne by exact Hne.
Qed.

(** Whatever the schedule, the tasks that come to their end are the
    tasks that were created, each of them once. *)
Lemma completion_order_perm {A} (schedule : list nat) :
  forall pending : list A,
    Permutation (completion_order schedule pending) pending.
Proof.
  induction schedule as [|k rest IH]; intros pending; [reflexivity|].
  cbn [completion_order]. destruct (pending !! k) as [t|] eqn:Hk.
  - rewrite IH. symmetry. apply delete_Permutation. exact Hk.
  - apply IH.
Qed.

(** And every order of the tasks is the order of some schedule. *)
Lemma completion_order_any {A} (order : list A) :
  forall pending : list A,
    Permutation order pending ->
    exists schedule, completion_order schedule pending = order.
Proof.
  induction order as [|t order IH]; intros pending Hp.
  - apply Permutation_nil in Hp. subst pending. exists []. reflexivity.
  - assert (t ∈ pending) as Hin by (rewrite <- Hp; left).
    apply list_elem_of_lookup_1 in Hin as [k Hk].
    pose proof (delete_Permutation pending k t Hk) as Hd.
    rewrite Hd in Hp. apply Permutation_cons_inv in Hp.
    destruct (IH _ Hp) as [schedule Hs].
    exists (k :: schedule). cbn [completion_order]. rewrite Hk, Hs.
    reflexivity.
Qed.

Lemma completion_order_nil {A} (schedule : list nat) :
  completion_order schedule ([] : list A) = [].
Proof.
  apply Permutation_nil. symmetry. apply completion_order_perm.
Qed.

Lemma combine_seq_snd {A} (l : list A) :
  forall n, List.map snd (List.combine (List.seq n (List.length l)) l) = l.
Proof. induction l as [|a l IH]; intros n; simpl; [|rewrite IH]; reflexivity. Qed.

Lemma indexed_snd {A} (l : list A) : List.map snd (indexed l) = l.
Proof. apply combine_seq_snd. Qed.

Lemma scheduled_perm {A} (schedule : list nat) (l : list A) :
  Permutation (List.map snd (completion_order schedule (indexed l))) l.
Proof.
  rewrite <- (indexed_snd l) at 2. apply Permutation_map, completion_order_perm.
Qed.

Lemma scheduled_in {A} (schedule : list nat) (l : list A) (k : nat) (a : A) :
  In (k, a) (completion_order schedule (indexed l)) -> In a l.
Proof.
  intros H. eapply Permutation_in; [apply (scheduled_perm schedule)|].
  apply (List.in_map snd) in H. exact H.
Qed.

Lemma in_scheduled {A} (schedule : list nat) (l : list A) (a : A) :
  In a l -> exists k, In (k, a) (completion_order schedule (indexed l)).
Proof.
  intros H.
  eapply Permutation_in in H; [|symmetry; apply (scheduled_perm schedule)].
  apply List.in_map_iff in H as ([k a'] & E & H). simpl in E. subst a'. eauto.
Qed.


(** In a list without two elements of the same image, two elements of
    the same image are one. *)
Lemma NoDup_map_same {A B} (f : A -> B) (l : list A) (x y : A) :
  List.NoDup (List.map f l) -> In x l -> In y l -> f x = f y -> x = y.
Proof.
  induction l as [|a l IH]; intros Hnd Hx Hy E; [destruct Hx|].
  cbn [List.map] in Hnd. inversion Hnd as [|? ? Hnot Hnd']; subst.
  destruct Hx as [->|Hx], Hy as [->|Hy]; auto.
  - exfalso. apply Hnot. rewrite E. apply List.in_map. exact Hy.
  - exfalso. apply Hnot. rewrite <- E. apply List.in_map. exact Hx.
Qed.

Section Facts.

Variable async_parse_gpx : string -> result Builder.parsed.
Variable latlon_to_mgrs : pyval -> pyval -> result string.
Variable serialize : list Builder.PointModel -> option Z -> string.
Variable schedule : list nat.

Let pc := pc async_parse_gpx latlon_to_mgrs serialize.
Let run_tasks := run_tasks async_parse_gpx latlon_to_mgrs serialize.
Let process_batch := process_batch async_parse_gpx latlon_to_mgrs serialize schedule.
Let json_of := json_of async_parse_gpx latlon_to_mgrs serialize.
Let main_body := main_body async_parse_gpx latlon_to_mgrs serialize schedule.
Let main := main async_parse_gpx latlon_to_mgrs serialize schedule.

(** One call of the pipeline either leaves the file system alone and
    only logs, or logs and then writes its text to its output path. *)
Lemma pc_cases (c : pc_call) (m : filesystem) :
  exists log,
    (fs_of (pc c m) = m /\ events_of (pc c m) = List.map ELog log) \/
    (exists out json,
        outputfile c = Some out /\
        json_of (inputfile c) (indentation c) = Ok json /\
        write_file m out json = Ok (fs_of (pc c m)) /\
        events_of (pc c m) = List.map ELog log ++ [EWrite out json] /\
        result_of (pc c m) = Ok None).
Proof.
  unfold pc, json_of, Cli.pc, Cli.json_of.
  destruct (Builder.process_gpx_to_point_models _ _ _ _) as [[models|e] log];
    exists log; simpl; [|left; auto].
  destruct (outputfile c) as [out|]; [|left; auto].
  destruct (write_file m out _) as [m'|e] eqn:W; [|left; auto].
  right. exists out, (serialize models (indentation c)). auto.
Qed.

(** One call of the pipeline, by what the pipeline gives and by where
    the text is to go. *)
Lemma pc_run (c : pc_call) (m : filesystem) :
  exists log,
    pc c m =
    match json_of (inputfile c) (indentation c) with
    | Raise e => (Raise e, m, List.map ELog log)
    | Ok json =>
        match outputfile c with
        | None => (Ok (Some json), m, List.map ELog log)
        | Some out =>
            match write_file m out json with
            | Raise e => (Raise e, m, List.map ELog log)
            | Ok m' => (Ok None, m', List.map ELog log ++ [EWrite out json])
            end
        end
    end.
Proof.
  unfold pc, json_of, Cli.pc, Cli.json_of.
  destruct (Builder.process_gpx_to_point_models _ _ _ _) as [[models|e] log];
    exists log; reflexivity.
Qed.

(** A task with an output path that comes to its end has written its
    text there. *)
Lemma pc_ok_output (c : pc_call) (m : filesystem) (a : option string) (out : Path) :
  result_of (pc c m) = Ok a -> outputfile c = Some out ->
  exists json,
    json_of (inputfile c) (indentation c) = Ok json /\
    write_file m out json = Ok (fs_of (pc c m)) /\
    written (events_of (pc c m)) = [(out, json)].
Proof.
  intros Hr Ho. destruct (pc_run c m) as [log Hpc]. rewrite Hpc in *. clear Hpc.
  destruct (json_of (inputfile c) (indentation c)) as [json|e];
    [|discriminate Hr].
  rewrite Ho in *. destruct (write_file m out json) as [m'|e] eqn:W;
    [|discriminate Hr].
  exists json. triples. rewrite written_app, written_logs. repeat split; auto.
Qed.


(** A task changes nothing in what is a directory and what is not. *)
Lemma pc_same_dirs (c : pc_call) (m : filesystem) (d : Path) :
  is_dir (fs_of (pc c m)) d = is_dir m d.
Proof.
  destruct (pc_cases c m) as [log [[-> _] | (out & json & _ & _ & W & _)]];
    [reflexivity | eapply write_file_same_dirs; eauto].
Qed.

Lemma pc_keeps_dir (c : pc_call) (m : filesystem) (d : Path) :
  is_dir m d = true -> is_dir (fs_of (pc c m)) d = true.
Proof. intros Hd. now rewrite pc_same_dirs. Qed.

Lemma pc_keeps_entries (c : pc_call) (m : filesystem) (q : Path) :
  is_Some (m !! q) -> is_Some (fs_of (pc c m) !! q).
Proof.
  intros Hq.
  destruct (pc_cases c m) as [log [[H _] | (out & json & _ & _ & W & _)]].
  - rewrite H. exact Hq.
  - eapply write_file_keeps; eauto.
Qed.

(** A task writes nowhere but at its output path. *)
Lemma pc_elsewhere (c : pc_call) (m : filesystem) (q : Path) :
  outputfile c <> Some q -> fs_of (pc c m) !! q = m !! q.
Proof.
  intros Hne.
  destruct (pc_cases c m) as [log [[H _] | (out & json & Ho & _ & W & _)]].
  - now rewrite H.
  - eapply write_file_elsewhere; [exact W|]. congruence.
Qed.

Lemma pc_events (c : pc_call) (m : filesystem) (d : Path) :
  List.forallb is_task_event (events_of (pc c m)) = true /\
  List.forallb (fun ev => negb (is_mkdir ev)) (events_of (pc c m)) = true /\
  List.forallb (starts_with_dir d) (events_of (pc c m)) = true /\
  created (events_of (pc c m)) = [] /\
  printed (events_of (pc c m)) = [].
Proof.
  destruct (pc_cases c m) as [log [[_ ->] | (out & json & _ & _ & _ & -> & _)]];
    rewrite ?List.forallb_app, ?created_app, ?created_logs, ?forallb_logs,
      ?printed_app, ?printed_logs;
    auto.
Qed.

Lemma pc_written (c : pc_call) (m : filesystem) :
  Forall (fun pw => outputfile c = Some (fst pw) /\
                    json_of (inputfile c) (indentation c) = Ok (snd pw))
         (written (events_of (pc c m))).
Proof.
  destruct (pc_cases c m) as [log [[_ ->] | (out & json & Ho & Hj & _ & -> & _)]];
    rewrite ?written_app, written_logs; simpl; auto.
Qed.

(** What a task answers and what it writes depend on the file system
    only through what is a directory in it. *)
Lemma pc_by_dirs (c : pc_call) (m m0 : filesystem) :
  (forall d, is_dir m d = is_dir m0 d) ->
  result_of (pc c m) = result_of (pc c m0) /\
  written (events_of (pc c m)) = written (events_of (pc c m0)).
Proof.
  intros Hd. destruct (pc_run c m) as [log ->], (pc_run c m0) as [log0 ->].
  destruct (json_of (inputfile c) (indentation c)) as [json|e];
    [|triples; rewrite !written_logs; auto].
  destruct (outputfile c) as [out|]; [|triples; rewrite !written_logs; auto].
  unfold write_file. rewrite !Hd.
  destruct (is_dir m0 out); [triples; rewrite !written_logs; auto|].
  destruct (is_dir m0 (parent out)); triples;
    rewrite ?written_app, !written_logs; auto.
Qed.

(** One step of the event loop. *)
Lemma run_tasks_step (k : nat) (t : pc_call) (rest : list (nat * pc_call))
  (m : filesystem) :
  run_tasks ((k, t) :: rest) m =
  match result_of (pc t m) with
  | Raise e =>
      (Raise e, fs_of (pc t m), ETaskStart t m :: events_of (pc t m))
  | Ok a =>
      (match result_of (run_tasks rest (fs_of (pc t m))) with
       | Ok l => Ok ((k, a) :: l)
       | Raise e => Raise e
       end,
       fs_of (run_tasks rest (fs_of (pc t m))),
       ETaskStart t m :: events_of (pc t m)
         ++ events_of (run_tasks rest (fs_of (pc t m))))
  end.
Proof.
  unfold run_tasks, pc. cbn [Cli.run_tasks].
  destruct (Cli.pc _ _ _ t m) as [[[a|e] m1] evs1]; triples; [|reflexivity].
  destruct (Cli.run_tasks _ _ _ rest m1) as [[r m2] evs2]. reflexivity.
Qed.

(** While tasks run, what is a directory stays one and nothing becomes
    one, so every task finds the directories the first one found. *)
Lemma run_tasks_same_dirs (tasks : list (nat * pc_call)) (d : Path) :
  forall m, is_dir (fs_of (run_tasks tasks m)) d = is_dir m d.
Proof.
  induction tasks as [|[k t] rest IH]; intros m; [reflexivity|].
  rewrite run_tasks_step. destruct (result_of (pc t m)); triples.
  - rewrite IH. apply pc_same_dirs.
  - apply pc_same_dirs.
Qed.

Lemma run_tasks_keep_dir (d : Path) (tasks : list (nat * pc_call)) :
  forall m, is_dir m d = true ->
    is_dir (fs_of (run_tasks tasks m)) d = true /\
    List.forallb (starts_with_dir d) (events_of (run_tasks tasks m)) = true.
Proof.
  induction tasks as [|[k t] rest IH]; intros m Hd; [split; auto|].
  split; [now rewrite run_tasks_same_dirs|].
  rewrite run_tasks_step.
  destruct (pc_events t m d) as (_ & _ & H3 & _).
  destruct (result_of (pc t m)); triples; cbn [List.forallb starts_with_dir];
    rewrite Hd, ?List.forallb_app, H3; [|reflexivity].
  destruct (IH _ (pc_keeps_dir t m d Hd)) as [_ H2]. now rewrite H2.
Qed.

Lemma run_tasks_events (tasks : list (nat * pc_call)) :
  forall m,
    List.forallb is_task_event (events_of (run_tasks tasks m)) = true /\
    List.forallb (fun ev => negb (is_mkdir ev)) (events_of (run_tasks tasks m)) = true /\
    created (events_of (run_tasks tasks m)) = [] /\
    printed (events_of (run_tasks tasks m)) = [].
Proof.
  induction tasks as [|[k t] rest IH]; intros m; [repeat split; auto|].
  rewrite run_tasks_step.
  destruct (pc_events t m Path_dot) as (H4 & H5 & _ & H6 & H7).
  destruct (result_of (pc t m)); triples;
    cbn [List.forallb is_task_event is_mkdir negb created printed andb];
    rewrite ?List.forallb_app, ?created_app, ?printed_app, H4, H5, H6, H7;
    [|auto].
  destruct (IH (fs_of (pc t m))) as (H1 & H2 & H3 & H8).
  rewrite H1, H2, H3, H8. auto.
Qed.

(** Whatever is written while the tasks run is the text of one of the
    tasks at the output path of that task. *)
Lemma run_tasks_written (tasks : list (nat * pc_call)) :
  forall m,
    Forall (fun pw => exists k c, In (k, c) tasks /\
                        outputfile c = Some (fst pw) /\
                        json_of (inputfile c) (indentation c) = Ok (snd pw))
           (written (events_of (run_tasks tasks m))).
Proof.
  induction tasks as [|[k t] rest IH]; intros m; [constructor|].
  rewrite run_tasks_step.
  assert (Forall (fun pw => exists k0 c, In (k0, c) ((k, t) :: rest) /\
                     outputfile c = Some (fst pw) /\
                     json_of (inputfile c) (indentation c) = Ok (snd pw))
                 (written (events_of (pc t m)))) as Hhead.
  { eapply List.Forall_impl; [|apply pc_written].
    intros pw [H1 H2]. exists k, t. simpl. auto. }
  destruct (result_of (pc t m)); triples; cbn [written]; [|exact Hhead].
  rewrite written_app. apply Forall_app. split; [exact Hhead|].
  eapply List.Forall_impl; [|apply IH].
  intros pw (k0 & c & H0 & H1 & H2). exists k0, c. simpl. auto.
Qed.

Lemma run_tasks_keep_entries (tasks : list (nat * pc_call)) (q : Path) :
  forall m, is_Some (m !! q) -> is_Some (fs_of (run_tasks tasks m) !! q).
Proof.
  induction tasks as [|[k t] rest IH]; intros m Hq; [exact Hq|].
  rewrite run_tasks_step. destruct (result_of (pc t m)); triples.
  - apply IH, pc_keeps_entries, Hq.
  - apply pc_keeps_entries, Hq.
Qed.

Lemma run_tasks_elsewhere (tasks : list (nat * pc_call)) (q : Path) :
  forall m,
    Forall (fun kc => outputfile (snd kc) <> Some q) tasks ->
    fs_of (run_tasks tasks m) !! q = m !! q.
Proof.
  induction tasks as [|[k t] rest IH]; intros m H; [reflexivity|].
  inversion H as [|? ? Ht Hrest]; subst. cbn [snd] in Ht.
  rewrite run_tasks_step. destruct (result_of (pc t m)); triples.
  - rewrite (IH _ Hrest). apply pc_elsewhere. exact Ht.
  - apply pc_elsewhere. exact Ht.
Qed.

(** When no task has raised, every task has written its text at its
    output path. *)
Lemma run_tasks_all_written (tasks : list (nat * pc_call)) :
  forall m l,
    result_of (run_tasks tasks m) = Ok l ->
    forall k c out,
      In (k, c) tasks -> outputfile c = Some out ->
      exists json,
        json_of (inputfile c) (indentation c) = Ok json /\
        In (out, json) (written (events_of (run_tasks tasks m))).
Proof.
  induction tasks as [|[k0 t] rest IH]; intros m l Hr k c out Hin Ho;
    [destruct Hin|].
  rewrite run_tasks_step in *.
  destruct (result_of (pc t m)) as [a|e] eqn:Ht; triples;
    [|rewrite result_of_triple in Hr; discriminate Hr].
  rewrite result_of_triple in Hr.
  destruct (result_of (run_tasks rest (fs_of (pc t m)))) as [l'|e] eqn:Hrest;
    [|discriminate Hr].
  cbn [written]. rewrite written_app. destruct Hin as [E|Hin].
  - inversion E; subst k0 t.
    destruct (pc_ok_output c m a out Ht Ho) as (json & Hj & _ & Hw).
    exists json. split; [exact Hj|]. apply in_or_app. left. rewrite Hw.
    simpl. auto.
  - destruct (IH _ _ Hrest k c out Hin Ho) as (json & Hj & Hw).
    exists json. split; [exact Hj|]. apply in_or_app. right. exact Hw.
Qed.

(** When no task has raised, an output path holds at the end the text of
    a task with that output path: the one that wrote there last. *)
Lemma run_tasks_last_writer (tasks : list (nat * pc_call)) :
  forall m l,
    result_of (run_tasks tasks m) = Ok l ->
    forall k c out,
      In (k, c) tasks -> outputfile c = Some out ->
      exists k' c' json',
        In (k', c') tasks /\ outputfile c' = Some out /\
        json_of (inputfile c') (indentation c') = Ok json' /\
        fs_of (run_tasks tasks m) !! out = Some (File json').
Proof.
  induction tasks as [|[k0 t] rest IH]; intros m l Hr k c out Hin Ho;
    [destruct Hin|].
  rewrite run_tasks_step in *.
  destruct (result_of (pc t m)) as [a|e] eqn:Ht; triples;
    [|rewrite result_of_triple in Hr; discriminate Hr].
  rewrite result_of_triple in Hr.
  destruct (result_of (run_tasks rest (fs_of (pc t m)))) as [l'|e] eqn:Hrest;
    [|discriminate Hr].
  destruct (List.Exists_dec (fun kc => outputfile (snd kc) = Some out) rest
              (fun kc => decide (outputfile (snd kc) = Some out)))
    as [Hex|Hno].
  - apply List.Exists_exists in Hex as ([k1 c1] & Hin1 & Ho1). cbn [snd] in Ho1.
    destruct (IH _ _ Hrest k1 c1 out Hin1 Ho1) as (k' & c' & json' & H1 & H2 & H3 & H4).
    exists k', c', json'. simpl. auto.
  - assert ((k, c) = (k0, t)) as E.
    { destruct Hin as [E|Hin]; [now symmetry|].
      exfalso. apply Hno. apply List.Exists_exists. exists (k, c). auto. }
    inversion E; subst k0 t.
    destruct (pc_ok_output c m a out Ht Ho) as (json & Hj & Hw & _).
    exists k, c, json. split; [simpl; auto|]. split; [exact Ho|].
    split; [exact Hj|].
    rewrite run_tasks_elsewhere.
    + eapply write_file_there. exact Hw.
    + apply List.Forall_Exists_neg. exact Hno.
Qed.

(** The tasks all come to their end exactly when each of them would, run
    on its own; and then what they write is what each writes on its own,
    in the order in which they end. *)
Lemma run_tasks_by_dirs (m0 : filesystem) (tasks : list (nat * pc_call)) :
  forall m,
    (forall d, is_dir m d = is_dir m0 d) ->
    (is_ok (result_of (run_tasks tasks m)) = true <->
     Forall (fun kc => is_ok (result_of (pc (snd kc) m0)) = true) tasks) /\
    (is_ok (result_of (run_tasks tasks m)) = true ->
     written (events_of (run_tasks tasks m))
     = List.flat_map (fun kc => written (events_of (pc (snd kc) m0))) tasks).
Proof.
  induction tasks as [|[k t] rest IH]; intros m Hd.
  - split; [split; auto | reflexivity].
  - rewrite run_tasks_step. destruct (pc_by_dirs t m m0 Hd) as [Er Ew].
    cbn [List.flat_map snd]. rewrite <- Ew.
    destruct (result_of (pc t m)) as [a|e] eqn:Ht; triples.
    + assert (forall d, is_dir (fs_of (pc t m)) d = is_dir m0 d) as Hd'
        by (intros d; rewrite pc_same_dirs; apply Hd).
      destruct (IH _ Hd') as [[I1 I2] I3].
      destruct (result_of (run_tasks rest (fs_of (pc t m)))) as [l|e] eqn:Hrest;
        cbn [is_ok] in *.
      * split; [split; auto|].
        -- intros _. constructor; [cbn [snd]; now rewrite <- Er|auto].
        -- intros _. cbn [written]. rewrite written_app, I3; auto.
      * split; [split; [discriminate|]|discriminate].
        intros H. inversion H; subst. auto.
    + cbn [is_ok]. split; [split; [discriminate|]|discriminate].
      intros H. inversion H as [|? ? Hh _]; subst. cbn [snd] in Hh.
      rewrite <- Er in Hh. discriminate Hh.
Qed.



Lemma create_tasks_run (files : list Path) (d : Path) (i : option Z) (c : bool)
  (m : filesystem) :
  create_tasks files d i c m =
  (Ok (List.map (batch_call d i c) files), m,
   List.map ECreateTask (List.map (batch_call d i c) files)).
Proof.
  induction files as [|x rest IH]; [reflexivity|].
  cbn [create_tasks List.map]. rewrite io_bind_run. unfold create_task.
  rewrite io_bind_run, IH. unfold io_ret. simpl. rewrite app_nil_r. reflexivity.
Qed.

(** [process_batch], step by step: the directory, the tasks, the wait. *)
Lemma process_batch_run (files : list Path) (d : Path) (i : option Z) (c : bool)
  (m : filesystem) :
  process_batch files d i c m =
  match mkdir_parents m d with
  | Raise e => (Raise e, m, [EMkdir d])
  | Ok m1 =>
      let tasks := List.map (batch_call d i c) files in
      let ending := completion_order schedule (indexed tasks) in
      (match result_of (run_tasks ending m1) with
       | Ok _ => Ok tt
       | Raise e => Raise e
       end,
       fs_of (run_tasks ending m1),
       EMkdir d :: List.map ECreateTask tasks ++ events_of (run_tasks ending m1))
  end.
Proof.
  unfold process_batch, Cli.process_batch. rewrite io_bind_run. unfold mkdir.
  destruct (mkdir_parents m d) as [m1|e]; [|reflexivity].
  rewrite io_bind_run, create_tasks_run. rewrite io_bind_run.
  unfold gather, run_tasks, result_of, fs_of, events_of.
  destruct (Cli.run_tasks _ _ _ _ m1) as [[[l|e] m2] evs]; simpl;
    rewrite ?app_nil_r; reflexivity.
Qed.


(** What a run of [process_batch] creates and writes. *)
Lemma process_batch_outputs (files : list Path) (d : Path) (i : option Z)
  (c : bool) (m : filesystem) :
  let evs := events_of (process_batch files d i c m) in
  created evs
    = match mkdir_parents m d with
      | Ok _ => List.map (batch_call d i c) files
      | Raise _ => []
      end /\
  List.filter is_mkdir evs = [EMkdir d] /\
  printed evs = [] /\
  Forall (fun pw => exists file,
            In file files /\
            fst pw = d // (stem file ++ ".json") /\
            json_of file i = Ok (snd pw))
         (written evs).
Proof.
  cbv zeta. rewrite process_batch_run.
  destruct (mkdir_parents m d) as [m1|e] eqn:Hm.
  - cbv zeta. triples.
    set (tasks := List.map (batch_call d i c) files).
    set (ending := completion_order schedule (indexed tasks)).
    destruct (run_tasks_events ending m1) as (_ & Hn & Hc & Hp).
    split; [|split; [|split]].
    + cbn [created]. rewrite created_app, created_created.
      rewrite Hc, app_nil_r. reflexivity.
    + cbn [List.filter is_mkdir]. f_equal. apply no_mkdir_filter.
      rewrite List.forallb_app, Hn, forallb_created; auto.
    + cbn [printed]. rewrite printed_app, printed_created. exact Hp.
    + cbn [written]. rewrite written_app, written_created. simpl.
      eapply List.Forall_impl; [|apply run_tasks_written].
      intros pw (k & t & Hin & Ho & Hj). apply scheduled_in in Hin.
      unfold tasks in Hin.
      apply List.in_map_iff in Hin as (file & <- & Hin).
      exists file. simpl in Ho. inversion Ho. auto.
  - triples. split; [reflexivity|]. split; [reflexivity|].
    split; [reflexivity|constructor].
Qed.

(** What a run of [process_batch] that raised nothing has done: the
    destination is a directory, every file has been written, and every
    output path holds the text of a file with that output path. *)
Lemma process_batch_done (files : list Path) (d : Path) (i : option Z)
  (c : bool) (m : filesystem) :
  result_of (process_batch files d i c m) = Ok tt ->
  is_dir (fs_of (process_batch files d i c m)) d = true /\
  (forall file, In file files ->
     exists json,
       json_of file i = Ok json /\
       In (d // (stem file ++ ".json"), json)
          (written (events_of (process_batch files d i c m))) /\
       exists file' json',
         In file' files /\
         d // (stem file' ++ ".json") = d // (stem file ++ ".json") /\
         json_of file' i = Ok json' /\
         fs_of (process_batch files d i c m) !! (d // (stem file ++ ".json"))
         = Some (File json')).
Proof.
  rewrite process_batch_run.
  destruct (mkdir_parents m d) as [m1|e] eqn:Hm;
    [|rewrite result_of_triple; discriminate].
  cbv zeta. triples.
  set (tasks := List.map (batch_call d i c) files).
  set (ending := completion_order schedule (indexed tasks)).
  destruct (result_of (run_tasks ending m1)) as [l|e] eqn:Hr; [|discriminate].
  intros _. split.
  - apply run_tasks_keep_dir. eapply mkdir_parents_is_dir. exact Hm.
  - intros file Hin.
    destruct (in_scheduled schedule tasks (batch_call d i c file)
                (List.in_map _ _ _ Hin)) as [k Hk].
    destruct (run_tasks_all_written ending m1 l Hr k _ _ Hk eq_refl)
      as (json & Hj & Hw).
    exists json. split; [exact Hj|]. split.
    + cbn [written]. rewrite written_app, written_created. exact Hw.
    + destruct (run_tasks_last_writer ending m1 l Hr k _ _ Hk eq_refl)
        as (k' & c' & json' & Hin' & Ho' & Hj' & Hfs).
      apply scheduled_in in Hin'. unfold tasks in Hin'.
      apply List.in_map_iff in Hin' as (file' & <- & Hin').
      assert (d // (stem file' ++ ".json") = d // (stem file ++ ".json")) as E
        by (change (outputfile (batch_call d i c file'))
              with (Some (d // (stem file' ++ ".json"))) in Ho'; congruence).
      exists file', json'. split; [exact Hin'|]. split; [exact E|].
      split; [exact Hj'|exact Hfs].
Qed.

(** The two batch branches of [main] as one call of [process_batch]. *)
Lemma main_body_batch (inputs : list Path) (output : option Path)
  (i : option Z) (c : bool) (m : filesystem) :
  batch_mode m inputs = true ->
  main_body inputs output i c m =
  process_batch (batch_files m inputs)
    (or_default output (default_destination inputs)) i c m.
Proof.
  unfold batch_mode, batch_files, default_destination, main_body, Cli.main_body.
  destruct (List.length inputs =? 1)%nat; cbn [negb orb andb].
  - intros Hd. rewrite Hd. unfold process_directory, iterdir. rewrite Hd.
    reflexivity.
  - intros _. reflexivity.
Qed.

(** With one directory as its input, [main] hands the entries with the
    suffix [.gpx] to [process_batch]. *)
Lemma main_body_directory (inputdir : Path) (output : option Path)
  (i : option Z) (c : bool) (m : filesystem) :
  is_dir m inputdir = true ->
  main_body [inputdir] output i c m =
  process_batch (List.filter has_gpx_suffix (entries_in m inputdir))
    (or_default output (inputdir // "coordextract_output")) i c m.
Proof.
  intros Hd. unfold main_body, Cli.main_body.
  cbn [List.length List.hd Nat.eqb andb].
  rewrite Hd. unfold process_directory, iterdir. rewrite Hd. reflexivity.
Qed.

(** With several inputs, [main] hands them all to [process_batch]. *)
Lemma main_body_several (inputs : list Path) (output : option Path)
  (i : option Z) (c : bool) (m : filesystem) :
  List.length inputs <> 1 ->
  main_body inputs output i c m =
  process_batch inputs (or_default output Path_dot) i c m.
Proof.
  intros Hn. unfold main_body, Cli.main_body.
  destruct (Nat.eqb_spec (List.length inputs) 1) as [E|_]; [contradiction|].
  reflexivity.
Qed.

(** The branch of [main] for one input that is no directory. *)
Lemma main_body_single (file : Path) (output : option Path)
  (i : option Z) (c : bool) (m : filesystem) :
  is_dir m file = false ->
  main_body [file] output i c m =
  process async_parse_gpx latlon_to_mgrs serialize file output i c m.
Proof.
  intros Hd. unfold main_body, Cli.main_body.
  cbn [List.length List.hd Nat.eqb andb]. rewrite Hd. reflexivity.
Qed.

(** [process], by what the pipeline gives and by where the text is to
    go. *)
Lemma process_run (file : Path) (output : option Path)
  (i : option Z) (c : bool) (m : filesystem) :
  exists log,
    process async_parse_gpx latlon_to_mgrs serialize file output i c m =
    match json_of file i with
    | Raise e => (Raise e, m, List.map ELog log)
    | Ok json =>
        match output with
        | None => (Ok tt, m, List.map ELog log ++ [EPrint json])
        | Some out =>
            match write_file m out json with
            | Raise e => (Raise e, m, List.map ELog log)
            | Ok m' => (Ok tt, m', List.map ELog log ++ [EWrite out json])
            end
        end
    end.
Proof.
  unfold process. rewrite io_bind_run.
  destruct (pc_run (mkCall file output i c (Some "cli")) m) as [log Hpc].
  unfold pc in Hpc. rewrite Hpc. cbn [inputfile indentation outputfile].
  exists log. destruct (json_of file i) as [json|e]; [|reflexivity].
  destruct output as [out|].
  - destruct (write_file m out json) as [m'|e]; [|reflexivity].
    unfold io_ret. now rewrite app_nil_r.
  - reflexivity.
Qed.

(** What [main] makes of its body. *)
Lemma main_run (inputs : list Path) (output : option Path) (i : option Z)
  (c : bool) (m : filesystem) :
  main inputs output i c m =
  match main_body inputs output i c m with
  | (Ok _, m', evs) => (Exit 0, m', evs)
  | (Raise e, m', evs) =>
      if caught e then (Exit 1, m', evs ++ [EPrintErr e])
      else (Uncaught e, m', evs)
  end.
Proof. reflexivity. Qed.

(** What [main] adds to the events of its body is at most the message on
    the error stream. *)
Lemma main_events (inputs : list Path) (output : option Path)
  (i : option Z) (c : bool) (m : filesystem) :
  exists tail,
    events_of (main inputs output i c m)
    = events_of (main_body inputs output i c m) ++ tail /\
    written tail = [] /\ created tail = [] /\
    List.filter is_mkdir tail = [] /\ printed tail = [].
Proof.
  rewrite main_run.
  destruct (main_body inputs output i c m) as [[[u|e] m'] evs].
  - exists []. triples. rewrite app_nil_r. auto.
  - destruct (caught e).
    + exists [EPrintErr e]. triples. auto.
    + exists []. triples. rewrite app_nil_r. auto.
Qed.

Lemma main_fs (inputs : list Path) (output : option Path) (i : option Z)
  (c : bool) (m : filesystem) :
  fs_of (main inputs output i c m) = fs_of (main_body inputs output i c m).
Proof.
  rewrite main_run.
  destruct (main_body inputs output i c m) as [[[u|e] m'] evs];
    [reflexivity|]. destruct (caught e); reflexivity.
Qed.

(** [main] exits with status 0 exactly when its body raised nothing. *)
Lemma main_exit_0 (inputs : list Path) (output : option Path) (i : option Z)
  (c : bool) (m : filesystem) :
  result_of (main inputs output i c m) = Exit 0 ->
  result_of (main_body inputs output i c m) = Ok tt /\
  events_of (main inputs output i c m) = events_of (main_body inputs output i c m).
Proof.
  rewrite main_run.
  destruct (main_body inputs output i c m) as [[[[]|e] m'] evs]; triples.
  - auto.
  - destruct (caught e); triples; discriminate.
Qed.


(** A batch that returns has written one output for each file: the
    paths written are the paths of the files, up to their order. *)
Lemma process_batch_written_paths (files : list Path) (d : Path)
  (i : option Z) (c : bool) (m : filesystem) :
  result_of (process_batch files d i c m) = Ok tt ->
  Permutation
    (List.map fst (written (events_of (process_batch files d i c m))))
    (List.map (fun file => d // (stem file ++ ".json")) files).
Proof.
  unfold process_batch. rewrite process_batch_run.
  destruct (mkdir_parents m d) as [m1|e] eqn:Hm; [|discriminate].
  cbv zeta. triples.
  set (tasks := List.map (batch_call d i c) files).
  set (ending := completion_order schedule (indexed tasks)).
  intros Hr.
  assert (is_ok (result_of (run_tasks ending m1)) = true) as Hok.
  { destruct (result_of (run_tasks ending m1)); [reflexivity|discriminate Hr]. }
  destruct (run_tasks_by_dirs m1 ending m1 (fun _ => eq_refl)) as [Hall Hw].
  apply Hall in Hok as Hf.
  cbn [written]. rewrite written_app, written_created. cbn [app].
  rewrite (Hw Hok).
  set (path_of := fun t : pc_call => or_default (outputfile t) Path_dot).
  assert (List.map fst
            (List.flat_map (fun kc => written (events_of (pc (snd kc) m1))) ending)
          = List.map path_of (List.map snd ending)) as ->.
  { assert (forall kc, In kc ending -> exists file, snd kc = batch_call d i c file)
      as Hb.
    { intros [k t] Hin. apply scheduled_in in Hin.
      apply List.in_map_iff in Hin as (file & <- & _). eauto. }
    clear Hall Hw Hok Hr. induction Hf as [|kc rest Hk _ IH]; [reflexivity|].
    cbn [List.flat_map List.map]. rewrite List.map_app, IH
      by (intros kc' Hin; apply Hb; right; exact Hin).
    destruct (Hb kc (or_introl eq_refl)) as [file E].
    destruct (result_of (pc (snd kc) m1)) as [a|e] eqn:Ha; [|discriminate Hk].
    destruct (pc_ok_output (snd kc) m1 a (d // (stem file ++ ".json")) Ha)
      as (json & _ & _ & ->); [rewrite E; reflexivity|].
    unfold path_of. rewrite E. reflexivity. }
  unfold ending. rewrite (scheduled_perm schedule tasks). unfold tasks.
  rewrite List.map_map. reflexivity.
Qed.

End Facts.

End CliFacts.

(** ** The assembler against its specification *)

Module AssemblerSpec.
Import Builder BuilderFacts AssemblerErrors.

(** C1 (output ordering).  Whenever [process_gpx_to_point_models] returns
    its list for a parsed input, the list is the waypoint records, then
    the trackpoint records, then the routepoint records, and in each
    group the records carry the coordinates of the pairs of that category
    that were not skipped, in the order the parser gave them. *)
Theorem assembled_in_category_order
  (async_parse_gpx : string -> result parsed)
  (latlon_to_mgrs : pyval -> pyval -> result string)
  (path : string) (waypoints trackpoints routepoints : list point)
  (log : list log_record) (out : list PointModel) (log' : list log_record) :
  async_parse_gpx path = Ok (waypoints, trackpoints, routepoints) ->
  process_gpx_to_point_models async_parse_gpx latlon_to_mgrs path log
    = (Ok out, log') ->
  exists ws ts rs,
    out = ws ++ ts ++ rs /\
    Forall (fun r => gpxpoint r = "waypoint") ws /\
    List.map coords ws = List.filter kept waypoints /\
    Forall (fun r => gpxpoint r = "trackpoint") ts /\
    List.map coords ts = List.filter kept trackpoints /\
    Forall (fun r => gpxpoint r = "routepoint") rs /\
    List.map coords rs = List.filter kept routepoints.
Proof.
  intros Hp Hrun. rewrite (process_after_parse _ _ _ _ _ Hp) in Hrun.
  apply assemble_ok in Hrun
    as (ws & ts & rs & -> & [Hw1 Hw2] & [Ht1 Ht2] & [Hr1 Hr2] & _).
  exists ws, ts, rs.
  repeat split; auto;
    match goal with
    | H : Forall (built_for _ ?ty) ?l |- Forall _ ?l =>
        eapply List.Forall_impl; [|exact H]; intros ? (E & _); exact E
    end.
Qed.

Lemma assembled_in_category_order_witness :
  exists ws ts rs,
    demo_records = ws ++ ts ++ rs /\
    Forall (fun r => gpxpoint r = "waypoint") ws /\
    List.map coords ws = List.filter kept (fst (fst demo_parsed)) /\
    Forall (fun r => gpxpoint r = "trackpoint") ts /\
    List.map coords ts = List.filter kept (snd (fst demo_parsed)) /\
    Forall (fun r => gpxpoint r = "routepoint") rs /\
    List.map coords rs = List.filter kept (snd demo_parsed).
Proof.
  apply (assembled_in_category_order demo_parse demo_mgrs "/data/demo.gpx"
           _ _ _ [] demo_records
           (diagnostics (all_points demo_parsed)));
    vm_compute; reflexivity.
Defined.




(** C3 (grid reference from the record's own coordinates).  Every record
    of the returned list stores the string the converter gives for the
    latitude and longitude stored on that same record. *)
Theorem mgrs_of_own_coordinates
  (async_parse_gpx : string -> result parsed)
  (latlon_to_mgrs : pyval -> pyval -> result string)
  (path : string) (log : list log_record)
  (out : list PointModel) (log' : list log_record) (r : PointModel) :
  process_gpx_to_point_models async_parse_gpx latlon_to_mgrs path log
    = (Ok out, log') ->
  In r out ->
  latlon_to_mgrs (latitude r) (longitude r) = Ok (mgrs r).
Proof.
  intros Hrun Hin. unfold process_gpx_to_point_models in Hrun.
  rewrite bind_run in Hrun. unfold lift in Hrun.
  destruct (async_parse_gpx path) as [[[w t] q]|e]; [|discriminate].
  apply assemble_ok in Hrun
    as (ws & ts & rs & -> & [_ Hw] & [_ Ht] & [_ Hr] & _).
  rewrite !in_app_iff in Hin. rewrite List.Forall_forall in Hw, Ht, Hr.
  destruct Hin as [Hin | [Hin | Hin]];
    [apply Hw in Hin | apply Ht in Hin | apply Hr in Hin];
    destruct Hin as (_ & _ & E); exact E.
Qed.

Lemma mgrs_of_own_coordinates_witness :
  demo_mgrs (PyFloat 2%float) (PyFloat 3%float) = Ok "18SUJ2348306479".
Proof.
  apply (mgrs_of_own_coordinates demo_parse demo_mgrs "/data/demo.gpx" []
           demo_records (diagnostics (all_points demo_parsed))
           (mkPointModel None "trackpoint" (PyFloat 2%float) (PyFloat 3%float)
              "18SUJ2348306479")).
  - vm_compute. reflexivity.
  - simpl. auto.
Defined.

(** C8 (an empty result is a normal return).  When the parser has
    answered and every pair of the input is skipped, the call returns the
    empty list; it raises nothing, and the log holds the one record per
    pair. *)
Theorem all_skipped_returns_empty
  (async_parse_gpx : string -> result parsed)
  (latlon_to_mgrs : pyval -> pyval -> result string)
  (path : string) (p : parsed) (log : list log_record) :
  async_parse_gpx path = Ok p ->
  Forall (fun q => skipped q = true) (all_points p) ->
  process_gpx_to_point_models async_parse_gpx latlon_to_mgrs path log
    = (Ok [], log ++ diagnostics (all_points p)).
Proof.
  intros Hp Hall. rewrite (process_after_parse _ _ _ _ _ Hp).
  apply assemble_all_skipped. exact Hall.
Qed.

Lemma all_skipped_returns_empty_witness :
  process_gpx_to_point_models demo_parse demo_mgrs "/data/nan.gpx" []
    = (Ok [], [] ++ diagnostics (all_points all_nan_parsed)).
Proof.
  apply (all_skipped_returns_empty demo_parse demo_mgrs "/data/nan.gpx"
           all_nan_parsed []).
  - reflexivity.
  - repeat constructor.
Defined.

End AssemblerSpec.

(** ** The assembler: what a caller can rely on *)

Module AssemblerBehaviour.
Import Builder BuilderFacts AssemblerErrors.

(** X1 (the first failing pair ends the call).  When the parser has
    answered and, in processing order (waypoints, trackpoints,
    routepoints), the pair [q] is the first one that raises (the NaN
    test on a text coordinate, or the converter on a pair that passed the
    test), the call raises that exception: the records built so far are
    lost, no later pair is looked at, and the log holds exactly the
    records of the pairs skipped in front of [q]. *)
Theorem first_failing_pair_ends_the_call
  (async_parse_gpx : string -> result parsed)
  (latlon_to_mgrs : pyval -> pyval -> result string)
  (path : string) (p : parsed) (log : list log_record)
  (pre post : list point) (q : point) (e : exn) :
  async_parse_gpx path = Ok p ->
  all_points p = pre ++ q :: post ->
  Forall (fun x => pair_error latlon_to_mgrs x = None) pre ->
  pair_error latlon_to_mgrs q = Some e ->
  process_gpx_to_point_models async_parse_gpx latlon_to_mgrs path log
  = (Raise e, log ++ diagnostics pre).
Proof.
  intros Hp Hsplit Hpre Hq. rewrite (process_after_parse _ _ _ _ _ Hp).
  destruct (first_error_at latlon_to_mgrs pre post q e Hpre Hq) as [H1 H2].
  rewrite <- Hsplit in H1, H2.
  rewrite (assemble_raises _ _ _ _ H1), H2. reflexivity.
Qed.

Lemma first_failing_pair_ends_the_call_witness :
  process_gpx_to_point_models ranged_parse ranged_mgrs "/data/range.gpx" []
  = (Raise ValueError,
     [] ++ diagnostics [ (PyFloat PrimFloat.nan, PyFloat 1%float);
                         (PyFloat 2%float, PyFloat 3%float);
                         (PyFloat 4%float, PyFloat 5%float) ]).
Proof.
  apply (first_failing_pair_ends_the_call ranged_parse ranged_mgrs
           "/data/range.gpx" out_of_range_parsed []
           [ (PyFloat PrimFloat.nan, PyFloat 1%float);
             (PyFloat 2%float, PyFloat 3%float);
             (PyFloat 4%float, PyFloat 5%float) ]
           [ (PyFloat 1%float, PyFloat PrimFloat.nan) ]
           (PyFloat 200%float, PyFloat 5%float) ValueError).
  - reflexivity.
  - reflexivity.
  - repeat constructor.
  - reflexivity.
Defined.

(** X2 (when the call returns, and the accounting).  Once the parser
    has answered, the call returns a list exactly when no pair raises;
    and when it returns, every pair of the input is accounted for once:
    the number of records plus the number of log records written is the
    number of pairs. *)
Theorem returns_iff_no_pair_raises
  (async_parse_gpx : string -> result parsed)
  (latlon_to_mgrs : pyval -> pyval -> result string)
  (path : string) (p : parsed) (log : list log_record) :
  async_parse_gpx path = Ok p ->
  (is_ok (fst (process_gpx_to_point_models async_parse_gpx latlon_to_mgrs
                 path log)) = true
   <-> Forall (fun q => pair_error latlon_to_mgrs q = None) (all_points p)) /\
  (forall out log',
      process_gpx_to_point_models async_parse_gpx latlon_to_mgrs path log
        = (Ok out, log') ->
      exists added,
        log' = log ++ added /\
        List.length out + List.length added = List.length (all_points p)).
Proof.
  intros Hp. rewrite (process_after_parse _ _ _ _ _ Hp). split.
  - rewrite <- first_error_none.
    destruct (first_error latlon_to_mgrs (all_points p)) as [e|] eqn:E.
    + rewrite (assemble_raises _ _ _ _ E). simpl. split; discriminate.
    + destruct (assemble_returns latlon_to_mgrs p log E) as [out ->].
      simpl. split; reflexivity.
  - intros out log' Hrun.
    assert (first_error latlon_to_mgrs (all_points p) = None) as E.
    { destruct (first_error latlon_to_mgrs (all_points p)) as [e|] eqn:E;
        [|reflexivity].
      rewrite (assemble_raises _ _ _ _ E) in Hrun. discriminate. }
    apply first_error_none in E.
    destruct p as [[w t] r].
    apply assemble_ok in Hrun
      as (ws & ts & rs & -> & [Hw _] & [Ht _] & [Hr _] & ->).
    exists (diagnostics (w ++ t ++ r)). split; [reflexivity|].
    rewrite <- (kept_or_skipped_count latlon_to_mgrs _ E).
    unfold all_points, diagnostics. rewrite List.length_map. f_equal.
    rewrite !List.filter_app, !List.length_app, <- Hw, <- Ht, <- Hr.
    rewrite !List.length_map. reflexivity.
Qed.

Lemma returns_iff_no_pair_raises_witness :
  (is_ok (fst (process_gpx_to_point_models demo_parse demo_mgrs
                 "/data/demo.gpx" [])) = true
   <-> Forall (fun q => pair_error demo_mgrs q = None) (all_points demo_parsed)) /\
  (forall out log',
      process_gpx_to_point_models demo_parse demo_mgrs "/data/demo.gpx" []
        = (Ok out, log') ->
      exists added,
        log' = [] ++ added /\
        List.length out + List.length added = List.length (all_points demo_parsed)).
Proof.
  apply (returns_iff_no_pair_raises demo_parse demo_mgrs "/data/demo.gpx"
           demo_parsed []).
  reflexivity.
Defined.

(** X3 (what a record holds).  Every record of a returned list has no
    name, carries one of the three categories, and has two floats as its
    coordinates, neither of them NaN. *)
Theorem records_are_unnamed_and_numeric
  (async_parse_gpx : string -> result parsed)
  (latlon_to_mgrs : pyval -> pyval -> result string)
  (path : string) (log : list log_record)
  (out : list PointModel) (log' : list log_record) (r : PointModel) :
  process_gpx_to_point_models async_parse_gpx latlon_to_mgrs path log
    = (Ok out, log') ->
  In r out ->
  name r = None /\
  (gpxpoint r = "waypoint" \/ gpxpoint r = "trackpoint" \/
   gpxpoint r = "routepoint") /\
  exists f g,
    latitude r = PyFloat f /\ longitude r = PyFloat g /\
    PrimFloat.is_nan f = false /\ PrimFloat.is_nan g = false.
Proof.
  intros Hrun Hin. unfold process_gpx_to_point_models in Hrun.
  rewrite bind_run in Hrun. unfold lift in Hrun.
  destruct (async_parse_gpx path) as [[[w t] q]|e]; [|discriminate].
  apply assemble_ok in Hrun
    as (ws & ts & rs & -> & [Hw1 Hw2] & [Ht1 Ht2] & [Hr1 Hr2] & _).
  assert (forall ty l pts,
             List.map coords l = List.filter kept pts ->
             Forall (built_for latlon_to_mgrs ty) l -> In r l ->
             name r = None /\ gpxpoint r = ty /\
             exists f g,
               latitude r = PyFloat f /\ longitude r = PyFloat g /\
               PrimFloat.is_nan f = false /\ PrimFloat.is_nan g = false)
    as Hone.
  { intros ty l pts Hc Hb Hr. rewrite List.Forall_forall in Hb.
    destruct (Hb r Hr) as (Hty & Hname & _). split; [exact Hname|].
    split; [exact Hty|].
    assert (In (coords r) (List.filter kept pts)) as Hk
      by (rewrite <- Hc; apply List.in_map; exact Hr).
    apply List.filter_In in Hk as [_ Hk].
    apply kept_floats in Hk as (f & g & E & Hf & Hg).
    unfold coords in E. injection E as E1 E2. exists f, g. auto. }
  rewrite !in_app_iff in Hin. destruct Hin as [Hin | [Hin | Hin]].
  - destruct (Hone _ _ _ Hw1 Hw2 Hin) as (H1 & H2 & H3). auto.
  - destruct (Hone _ _ _ Ht1 Ht2 Hin) as (H1 & H2 & H3). auto.
  - destruct (Hone _ _ _ Hr1 Hr2 Hin) as (H1 & H2 & H3). auto.
Qed.

Lemma records_are_unnamed_and_numeric_witness :
  name (mkPointModel None "routepoint" (PyFloat 4%float) (PyFloat 5%float)
          "18SUJ2348306479") = None /\
  (gpxpoint (mkPointModel None "routepoint" (PyFloat 4%float) (PyFloat 5%float)
               "18SUJ2348306479") = "waypoint" \/
   gpxpoint (mkPointModel None "routepoint" (PyFloat 4%float) (PyFloat 5%float)
               "18SUJ2348306479") = "trackpoint" \/
   gpxpoint (mkPointModel None "routepoint" (PyFloat 4%float) (PyFloat 5%float)
               "18SUJ2348306479") = "routepoint") /\
  exists f g,
    latitude (mkPointModel None "routepoint" (PyFloat 4%float) (PyFloat 5%float)
                "18SUJ2348306479") = PyFloat f /\
    longitude (mkPointModel None "routepoint" (PyFloat 4%float) (PyFloat 5%float)
                 "18SUJ2348306479") = PyFloat g /\
    PrimFloat.is_nan f = false /\ PrimFloat.is_nan g = false.
Proof.
  apply (records_are_unnamed_and_numeric demo_parse demo_mgrs "/data/demo.gpx"
           [] demo_records (diagnostics (all_points demo_parsed))).
  - vm_compute. reflexivity.
  - simpl. auto.
Defined.

End AssemblerBehaviour.

(** ** The orchestrator against its specification *)

Module OrchestratorSpec.
Import Cli PathlibFacts CliFacts.

(** C7 (the directory before the tasks).  In every run of
    [process_batch] the first event is the one call of [mkdir] on the
    destination directory; everything after it belongs to the per-file
    tasks and is no further [mkdir].  If that call fails, nothing
    follows: no task is created and the exception is the result.  If it
    succeeds, the destination is a directory from then on, one task is
    created per file, and every task that starts finds the directory in
    place. *)
Theorem mkdir_once_before_tasks
  (async_parse_gpx : string -> result Builder.parsed)
  (latlon_to_mgrs : pyval -> pyval -> result string)
  (serialize : list Builder.PointModel -> option Z -> string)
  (schedule : list nat)
  (files : list Path) (outputdir : Path) (indentation : option Z)
  (concurrency : bool) (m : filesystem) :
  exists tail,
    events_of (process_batch async_parse_gpx latlon_to_mgrs serialize schedule
                 files outputdir indentation concurrency m)
      = EMkdir outputdir :: tail /\
    List.filter is_mkdir tail = [] /\
    List.forallb is_task_event tail = true /\
    List.forallb (starts_with_dir outputdir) tail = true /\
    (forall e, mkdir_parents m outputdir = Raise e ->
       tail = [] /\
       result_of (process_batch async_parse_gpx latlon_to_mgrs serialize schedule
                    files outputdir indentation concurrency m) = Raise e) /\
    (forall m1, mkdir_parents m outputdir = Ok m1 ->
       is_dir m1 outputdir = true /\
       created tail
         = List.map (batch_call outputdir indentation concurrency) files).
Proof.
  rewrite process_batch_run.
  destruct (mkdir_parents m outputdir) as [m1|e] eqn:Hm.
  - cbv zeta. triples. eexists. split; [reflexivity|].
    pose proof (mkdir_parents_is_dir _ _ _ Hm) as Hd.
    set (tasks := List.map (batch_call outputdir indentation concurrency) files).
    set (ending := completion_order schedule (indexed tasks)).
    destruct (run_tasks_keep_dir async_parse_gpx latlon_to_mgrs serialize
                outputdir ending m1 Hd) as [_ Hs].
    destruct (run_tasks_events async_parse_gpx latlon_to_mgrs serialize
                ending m1) as (Ht & Hn & Hc & _).
    split; [|split; [|split; [|split]]].
    + apply no_mkdir_filter. rewrite List.forallb_app, Hn, forallb_created; auto.
    + rewrite List.forallb_app, Ht, forallb_created; auto.
    + rewrite List.forallb_app, Hs, forallb_created; auto.
    + intros e He. discriminate He.
    + intros m1' E. inversion E; subst m1'. split; [exact Hd|].
      rewrite created_app, created_created, Hc, app_nil_r. reflexivity.
  - triples. exists []. split; [reflexivity|].
    split; [reflexivity|]. split; [reflexivity|]. split; [reflexivity|].
    split.
    + intros e' E. inversion E; subst e'. auto.
    + intros m1 E. discriminate E.
Qed.




(** C4 (batch layout for one directory).  Given one directory and no
    output option, [main] calls [mkdir] once, on
    [<inputdir>/coordextract_output]; when that succeeds it creates one
    task per selected file, whose output path is
    [<inputdir>/coordextract_output/<stem>.json]; these paths are
    pairwise different, one per input file; whatever is written is the
    text of one of the files at the path of that file.  When [main]
    ends with exit status 0, the destination is a directory, the paths
    written are the paths of the selected files, one output per input,
    and for every selected file the file system holds the text of that
    file at [<inputdir>/coordextract_output/<stem>.json]. *)
Theorem directory_outputs_layout
  (async_parse_gpx : string -> result Builder.parsed)
  (latlon_to_mgrs : pyval -> pyval -> result string)
  (serialize : list Builder.PointModel -> option Z -> string)
  (schedule : list nat)
  (inputdir : Path) (indentation : option Z) (concurrency : bool)
  (m : filesystem) :
  is_dir m inputdir = true ->
  let outputdir := inputdir // "coordextract_output" in
  let files := List.filter has_gpx_suffix (entries_in m inputdir) in
  let out := fun file => outputdir // (stem file ++ ".json") in
  let run := main async_parse_gpx latlon_to_mgrs serialize schedule
               [inputdir] None indentation concurrency m in
  let evs := events_of run in
  List.filter is_mkdir evs = [EMkdir outputdir] /\
  created evs
    = match mkdir_parents m outputdir with
      | Ok _ => List.map (batch_call outputdir indentation concurrency) files
      | Raise _ => []
      end /\
  List.NoDup (List.map out files) /\
  Forall (fun pw => exists file,
            In file files /\ fst pw = out file /\
            json_of async_parse_gpx latlon_to_mgrs serialize file indentation
              = Ok (snd pw))
         (written evs) /\
  (result_of run = Exit 0 ->
   is_dir (fs_of run) outputdir = true /\
   Permutation (List.map fst (written evs)) (List.map out files) /\
   (forall file,
       In file files ->
       exists json,
         json_of async_parse_gpx latlon_to_mgrs serialize file indentation
           = Ok json /\
         In (out file, json) (written evs) /\
         fs_of run !! out file = Some (File json))).
Proof.
  intros Hd. cbv zeta.
  assert (List.NoDup
            (List.map (fun file => inputdir // "coordextract_output"
                                     // (stem file ++ ".json"))
               (List.filter has_gpx_suffix (entries_in m inputdir)))) as Hnd.
  { apply List.NoDup_map_NoDup_ForallPairs.
    - intros f1 f2 Hf1 Hf2 E.
      apply List.filter_In in Hf1 as [Hi1 Hs1], Hf2 as [Hi2 Hs2].
      apply List.filter_In in Hi1 as [_ Hc1], Hi2 as [_ Hc2].
      apply String.eqb_eq in Hs1, Hs2.
      apply truediv_inj, string_app_inv_tail in E.
      exact (gpx_children_stem_inj inputdir f1 f2 Hc1 Hc2 Hs1 Hs2 E).
    - apply List.NoDup_filter, entries_NoDup. }
  destruct (main_events async_parse_gpx latlon_to_mgrs serialize schedule
              [inputdir] None indentation concurrency m)
    as (tail & Hev & Hw & Hc & Hk & _).
  pose proof (main_body_directory async_parse_gpx latlon_to_mgrs serialize
                schedule inputdir None indentation concurrency m Hd) as Hb.
  cbn [or_default] in Hb.
  destruct (process_batch_outputs async_parse_gpx latlon_to_mgrs serialize
              schedule (List.filter has_gpx_suffix (entries_in m inputdir))
              (inputdir // "coordextract_output") indentation concurrency m)
    as (H1 & H2 & _ & H3).
  split; [|split; [|split; [exact Hnd|split]]].
  - rewrite Hev, Hb, List.filter_app, Hk, app_nil_r. exact H2.
  - rewrite Hev, Hb, created_app, Hc, app_nil_r. exact H1.
  - rewrite Hev, Hb, written_app, Hw, app_nil_r. exact H3.
  - intros Hex. apply main_exit_0 in Hex as [Hr He].
    rewrite main_fs, He, Hb. rewrite Hb in Hr.
    destruct (process_batch_done _ _ _ _ _ _ _ _ _ Hr) as [Hdir Hall].
    split; [exact Hdir|].
    split; [exact (process_batch_written_paths _ _ _ _ _ _ _ _ _ Hr)|].
    intros file Hin.
    destruct (Hall file Hin)
      as (json & Hj & Hwr & file' & json' & Hin' & Ep & Hj' & Hfs).
    exists json. split; [exact Hj|]. split; [exact Hwr|].
    rewrite Hfs.
    assert (file' = file) as ->
      by exact (NoDup_map_same _ _ _ _ Hnd Hin' Hin Ep).
    congruence.
Qed.

Lemma directory_outputs_layout_witness :
  let outputdir := data // "coordextract_output" in
  let files := List.filter has_gpx_suffix (entries_in tracks_fs data) in
  let out := fun file => outputdir // (stem file ++ ".json") in
  let run := main Builder.demo_parse Builder.demo_mgrs demo_serialize [1]
               [data] None None true tracks_fs in
  let evs := events_of run in
  result_of run = Exit 0 /\
  List.filter is_mkdir evs = [EMkdir outputdir] /\
  created evs
    = match mkdir_parents tracks_fs outputdir with
      | Ok _ => List.map (batch_call outputdir None true) files
      | Raise _ => []
      end /\
  List.NoDup (List.map out files) /\
  Forall (fun pw => exists file,
            In file files /\ fst pw = out file /\
            json_of Builder.demo_parse Builder.demo_mgrs demo_serialize file None
              = Ok (snd pw))
         (written evs) /\
  (result_of run = Exit 0 ->
   is_dir (fs_of run) outputdir = true /\
   Permutation (List.map fst (written evs)) (List.map out files) /\
   (forall file,
       In file files ->
       exists json,
         json_of Builder.demo_parse Builder.demo_mgrs demo_serialize file None
           = Ok json /\
         In (out file, json) (written evs) /\
         fs_of run !! out file = Some (File json))).
Proof.
  split; [vm_compute; reflexivity|].
  apply (directory_outputs_layout Builder.demo_parse Builder.demo_mgrs
           demo_serialize [1] data None true tracks_fs).
  vm_compute. reflexivity.
Defined.

(** C10 (several inputs, no output option).  Given more than one input
    path and no output option, [main] calls [mkdir] once, on [Path(".")],
    and creates one task per input whose output path is
    [Path(".") / "<stem>.json"].  Whatever is written is the text of one
    of the inputs, written at the path of that input, a file directly in
    the working directory.  When [main] ends with exit status 0, the
    paths written are the paths of the inputs, one output per input, and
    for every input the text of that input was written at
    [Path(".") / "<stem>.json"] and the file system holds there the text
    of an input of that stem: the one written last. *)
Theorem several_inputs_write_to_cwd
  (async_parse_gpx : string -> result Builder.parsed)
  (latlon_to_mgrs : pyval -> pyval -> result string)
  (serialize : list Builder.PointModel -> option Z -> string)
  (schedule : list nat)
  (inputs : list Path) (indentation : option Z) (concurrency : bool)
  (m : filesystem) :
  1 < List.length inputs ->
  let out := fun file => Path_dot // (stem file ++ ".json") in
  let run := main async_parse_gpx latlon_to_mgrs serialize schedule
               inputs None indentation concurrency m in
  let evs := events_of run in
  List.filter is_mkdir evs = [EMkdir Path_dot] /\
  created evs = List.map (batch_call Path_dot indentation concurrency) inputs /\
  Forall (fun pw => parent (fst pw) = Path_dot /\
                    exists file,
                      In file inputs /\ fst pw = out file /\
                      json_of async_parse_gpx latlon_to_mgrs serialize file
                        indentation = Ok (snd pw))
         (written evs) /\
  (result_of run = Exit 0 ->
   Permutation (List.map fst (written evs)) (List.map out inputs) /\
   (forall file,
       In file inputs ->
       exists json,
         json_of async_parse_gpx latlon_to_mgrs serialize file indentation
           = Ok json /\
         In (out file, json) (written evs) /\
         exists file' json',
           In file' inputs /\ out file' = out file /\
           json_of async_parse_gpx latlon_to_mgrs serialize file' indentation
             = Ok json' /\
           fs_of run !! out file = Some (File json'))).
Proof.
  intros Hlen. cbv zeta.
  destruct (main_events async_parse_gpx latlon_to_mgrs serialize schedule
              inputs None indentation concurrency m)
    as (tail & Hev & Hw & Hc & Hk & _).
  assert (List.length inputs <> 1) as Hn by lia.
  pose proof (main_body_several async_parse_gpx latlon_to_mgrs serialize
                schedule inputs None indentation concurrency m Hn) as Hb.
  cbn [or_default] in Hb.
  destruct (process_batch_outputs async_parse_gpx latlon_to_mgrs serialize
              schedule inputs Path_dot indentation concurrency m)
    as (H1 & H2 & _ & H3).
  rewrite mkdir_dot in H1.
  split; [|split; [|split]].
  - rewrite Hev, Hb, List.filter_app, Hk, app_nil_r. exact H2.
  - rewrite Hev, Hb, created_app, Hc, app_nil_r. exact H1.
  - rewrite Hev, Hb, written_app, Hw, app_nil_r.
    eapply List.Forall_impl; [|exact H3].
    intros [p content] (file & Hin & E & Hj). cbn [fst snd] in *.
    split; [rewrite E; reflexivity|]. exists file. auto.
  - intros Hex. apply main_exit_0 in Hex as [Hr He].
    rewrite main_fs, He, Hb. rewrite Hb in Hr.
    destruct (process_batch_done _ _ _ _ _ _ _ _ _ Hr) as [_ Hall].
    split; [exact (process_batch_written_paths _ _ _ _ _ _ _ _ _ Hr)|].
    exact Hall.
Qed.

Lemma several_inputs_write_to_cwd_witness :
  let inputs := [data // "demo.gpx"; data // "nan.gpx"] in
  let out := fun file => Path_dot // (stem file ++ ".json") in
  let run := main Builder.demo_parse Builder.demo_mgrs demo_serialize [1]
               inputs None (Some 2%Z) false demo_fs in
  let evs := events_of run in
  result_of run = Exit 0 /\
  List.filter is_mkdir evs = [EMkdir Path_dot] /\
  created evs = List.map (batch_call Path_dot (Some 2%Z) false) inputs /\
  Forall (fun pw => parent (fst pw) = Path_dot /\
                    exists file,
                      In file inputs /\ fst pw = out file /\
                      json_of Builder.demo_parse Builder.demo_mgrs
                        demo_serialize file (Some 2%Z) = Ok (snd pw))
         (written evs) /\
  (result_of run = Exit 0 ->
   Permutation (List.map fst (written evs)) (List.map out inputs) /\
   (forall file,
       In file inputs ->
       exists json,
         json_of Builder.demo_parse Builder.demo_mgrs demo_serialize file
           (Some 2%Z) = Ok json /\
         In (out file, json) (written evs) /\
         exists file' json',
           In file' inputs /\ out file' = out file /\
           json_of Builder.demo_parse Builder.demo_mgrs demo_serialize file'
             (Some 2%Z) = Ok json' /\
           fs_of run !! out file = Some (File json'))).
Proof.
  split; [vm_compute; reflexivity|].
  apply (several_inputs_write_to_cwd Builder.demo_parse Builder.demo_mgrs
           demo_serialize [1] [data // "demo.gpx"; data // "nan.gpx"]
           (Some 2%Z) false demo_fs).
  simpl. lia.
Defined.

(** C9, as the code has it.  When the input directory exists and the
    destination can be made, the files [process_directory] creates a
    task for are exactly the entries directly inside the input directory
    whose suffix is [.gpx], each of them once, be the entry a file or a
    directory; no other entry and nothing deeper in the tree is
    selected. *)
Theorem directory_selection
  (async_parse_gpx : string -> result Builder.parsed)
  (latlon_to_mgrs : pyval -> pyval -> result string)
  (serialize : list Builder.PointModel -> option Z -> string)
  (schedule : list nat)
  (inputdir outputdir : Path) (indentation : option Z) (concurrency : bool)
  (m : filesystem) :
  is_dir m inputdir = true ->
  is_ok (mkdir_parents m outputdir) = true ->
  let selected :=
    List.map inputfile
      (created (events_of (process_directory async_parse_gpx latlon_to_mgrs
                             serialize schedule inputdir outputdir indentation
                             concurrency m))) in
  List.NoDup selected /\
  (forall q, In q selected <->
             is_Some (m !! q) /\
             (segments q <> [] /\ parent q = inputdir) /\
             suffix q = ".gpx").
Proof.
  intros Hd Hm. cbv zeta.
  unfold process_directory, iterdir. rewrite Hd.
  destruct (process_batch_outputs async_parse_gpx latlon_to_mgrs serialize schedule
              (List.filter has_gpx_suffix (entries_in m inputdir))
              outputdir indentation concurrency m) as (H1 & _).
  destruct (mkdir_parents m outputdir) as [m1|e]; [|discriminate Hm].
  fold (entries_in m inputdir). rewrite H1.
  rewrite List.map_map. cbn [batch_call inputfile]. rewrite List.map_id.
  split.
  - apply List.NoDup_filter, entries_NoDup.
  - intros q. rewrite List.filter_In. unfold entries_in.
    rewrite entries_spec, child_of_spec. unfold has_gpx_suffix.
    rewrite String.eqb_eq. tauto.
Qed.

Lemma directory_selection_witness :
  let selected :=
    List.map inputfile
      (created (events_of (process_directory Builder.demo_parse
                             Builder.demo_mgrs demo_serialize [] data
                             (data // "out") None false demo_fs))) in
  List.NoDup selected /\
  (forall q, In q selected <->
             is_Some (demo_fs !! q) /\
             (segments q <> [] /\ parent q = data) /\
             suffix q = ".gpx").
Proof.
  apply (directory_selection Builder.demo_parse Builder.demo_mgrs
           demo_serialize [] data (data // "out") None false demo_fs).
  - vm_compute. reflexivity.
  - vm_compute. reflexivity.
Defined.

(** C9, as the claim words it, fails on a subdirectory whose name ends
    in [.gpx]: [/data/sub.gpx] is a directory and is selected like the
    track files beside it, while the file inside it is not. *)
Lemma gpx_subdirectory_selected :
  demo_fs !! (data // "sub.gpx") = Some Dir /\
  List.map inputfile
    (created (events_of (process_directory Builder.demo_parse
                           Builder.demo_mgrs demo_serialize [] data
                           (data // "coordextract_output") None false demo_fs)))
  = [data // "demo.gpx"; data // "nan.gpx"; data // "sub.gpx"].
Proof.
  split; vm_compute; reflexivity.
Qed.

End OrchestratorSpec.

(** ** The orchestrator: modes, destinations, exit status *)

Module OrchestratorBehaviour.
Import Cli PathlibFacts CliFacts.

(** X4 (which names are selected, and how the output is named).  An
    entry passes the test [file.suffix == ".gpx"] exactly when its name
    is a non-empty stem followed by [.gpx]; that stem is then [file.stem],
    the part the output name [<stem>.json] is built from.  So a file
    named just [.gpx] is not selected, and of several suffixes only the
    last one is cut off. *)
Theorem selected_by_name (file : Path) :
  (has_gpx_suffix file = true <->
   exists s, s <> "" /\ name file = (s ++ ".gpx")%string) /\
  (forall s, s <> "" -> name file = (s ++ ".gpx")%string -> stem file = s).
Proof.
  split.
  - unfold has_gpx_suffix. rewrite String.eqb_eq. split.
    + intros H. exists (stem file). split; [|apply gpx_name; exact H].
      intros E. pose proof (gpx_name _ H) as N. rewrite E in N.
      unfold suffix in H. rewrite N in H. discriminate H.
    + intros (s & Hs & N). unfold suffix.
      rewrite N, (suffix_index_gpx s Hs), string_length_app.
      replace (String.length s + String.length ".gpx" - String.length s)
        with (String.length ".gpx") by lia.
      apply substring_app_back.
  - intros s Hs N. unfold stem. rewrite N, (suffix_index_gpx s Hs).
    apply substring_app_front.
Qed.

(** X5 (the destination of a batch).  In the two branches of [main]
    that process a batch, the destination is the output option when
    there is one, and otherwise the default of the branch.  [main] calls
    [mkdir] on it once and, when that succeeds, creates one task per
    file with the output path [<destination>/<stem>.json]; nothing is
    printed on the standard output, and whatever is written is the text
    of one of the files at the path of that file. *)
Theorem batch_destination
  (async_parse_gpx : string -> result Builder.parsed)
  (latlon_to_mgrs : pyval -> pyval -> result string)
  (serialize : list Builder.PointModel -> option Z -> string)
  (schedule : list nat)
  (inputs : list Path) (output : option Path) (indentation : option Z)
  (concurrency : bool) (m : filesystem) :
  batch_mode m inputs = true ->
  let dest := or_default output (default_destination inputs) in
  let evs := events_of (main async_parse_gpx latlon_to_mgrs serialize schedule
                          inputs output indentation concurrency m) in
  List.filter is_mkdir evs = [EMkdir dest] /\
  created evs
    = match mkdir_parents m dest with
      | Ok _ => List.map (batch_call dest indentation concurrency)
                  (batch_files m inputs)
      | Raise _ => []
      end /\
  printed evs = [] /\
  Forall (fun pw => exists file,
            In file (batch_files m inputs) /\
            fst pw = dest // (stem file ++ ".json") /\
            json_of async_parse_gpx latlon_to_mgrs serialize file indentation
              = Ok (snd pw))
         (written evs).
Proof.
  intros Hb. cbv zeta.
  destruct (main_events async_parse_gpx latlon_to_mgrs serialize schedule
              inputs output indentation concurrency m)
    as (tail & -> & Hw & Hc & Hk & Hp).
  rewrite (main_body_batch _ _ _ _ _ _ _ _ _ Hb).
  set (dest := or_default output (default_destination inputs)).
  destruct (process_batch_outputs async_parse_gpx latlon_to_mgrs serialize
              schedule (batch_files m inputs) dest indentation concurrency m)
    as (H1 & H2 & H3 & H4).
  rewrite List.filter_app, created_app, written_app, printed_app,
    Hw, Hc, Hk, Hp, !app_nil_r.
  auto.
Qed.

Lemma batch_destination_witness :
  let dest := or_default (Some (data // "out")) (default_destination [data]) in
  let evs := events_of (main Builder.demo_parse Builder.demo_mgrs demo_serialize []
                          [data] (Some (data // "out")) None false demo_fs) in
  List.filter is_mkdir evs = [EMkdir dest] /\
  created evs
    = match mkdir_parents demo_fs dest with
      | Ok _ => List.map (batch_call dest None false) (batch_files demo_fs [data])
      | Raise _ => []
      end /\
  printed evs = [] /\
  Forall (fun pw => exists file,
            In file (batch_files demo_fs [data]) /\
            fst pw = dest // (stem file ++ ".json") /\
            json_of Builder.demo_parse Builder.demo_mgrs demo_serialize file None
              = Ok (snd pw))
         (written evs).
Proof.
  apply (batch_destination Builder.demo_parse Builder.demo_mgrs demo_serialize []
           [data] (Some (data // "out")) None false demo_fs).
  vm_compute. reflexivity.
Defined.

(** X6 (a destination that cannot be made).  When, in a batch branch,
    [mkdir] on the destination fails (a file is in the way), [main]
    creates no task, writes nothing and leaves the file system as it was;
    the exception is an [OSError], which [main] reports on the error
    stream before it exits with status 1. *)
Theorem blocked_destination_exits_1
  (async_parse_gpx : string -> result Builder.parsed)
  (latlon_to_mgrs : pyval -> pyval -> result string)
  (serialize : list Builder.PointModel -> option Z -> string)
  (schedule : list nat)
  (inputs : list Path) (output : option Path) (indentation : option Z)
  (concurrency : bool) (m : filesystem) :
  batch_mode m inputs = true ->
  is_ok (mkdir_parents m (or_default output (default_destination inputs)))
    = false ->
  main async_parse_gpx latlon_to_mgrs serialize schedule
    inputs output indentation concurrency m
  = (Exit 1, m,
     [EMkdir (or_default output (default_destination inputs));
      EPrintErr OSError]).
Proof.
  intros Hb Hm. rewrite main_run, (main_body_batch _ _ _ _ _ _ _ _ _ Hb).
  rewrite process_batch_run.
  destruct (mkdir_parents m _) as [m1|e] eqn:E; [discriminate Hm|].
  apply mkdir_raises_oserror in E. subst e. reflexivity.
Qed.

Lemma blocked_destination_exits_1_witness :
  main Builder.demo_parse Builder.demo_mgrs demo_serialize []
    [data] (Some (data // "notes.txt")) None false demo_fs
  = (Exit 1, demo_fs,
     [EMkdir (or_default (Some (data // "notes.txt")) (default_destination [data]));
      EPrintErr OSError]).
Proof.
  apply (blocked_destination_exits_1 Builder.demo_parse Builder.demo_mgrs
           demo_serialize [] [data] (Some (data // "notes.txt")) None false demo_fs).
  - vm_compute. reflexivity.
  - vm_compute. reflexivity.
Defined.

(** X7 (nothing to process).  When a batch branch has no file to hand
    over (a directory without any [.gpx] entry) and the destination can
    be made, [main] still makes the destination directory, does nothing
    else, and exits with status 0. *)
Theorem empty_batch_still_makes_destination
  (async_parse_gpx : string -> result Builder.parsed)
  (latlon_to_mgrs : pyval -> pyval -> result string)
  (serialize : list Builder.PointModel -> option Z -> string)
  (schedule : list nat)
  (inputs : list Path) (output : option Path) (indentation : option Z)
  (concurrency : bool) (m : filesystem) :
  batch_mode m inputs = true ->
  batch_files m inputs = [] ->
  is_ok (mkdir_parents m (or_default output (default_destination inputs)))
    = true ->
  let dest := or_default output (default_destination inputs) in
  let t := main async_parse_gpx latlon_to_mgrs serialize schedule
             inputs output indentation concurrency m in
  result_of t = Exit 0 /\
  events_of t = [EMkdir dest] /\
  mkdir_parents m dest = Ok (fs_of t) /\
  is_dir (fs_of t) dest = true.
Proof.
  intros Hb Hf Hm. cbv zeta.
  rewrite main_run, (main_body_batch _ _ _ _ _ _ _ _ _ Hb), Hf.
  rewrite process_batch_run.
  destruct (mkdir_parents m _) as [m1|e] eqn:E; [|discriminate Hm].
  cbv zeta. cbn [List.map].
  change (indexed (@nil pc_call)) with (@nil (nat * pc_call)).
  rewrite completion_order_nil.
  cbn. repeat split. eapply mkdir_parents_is_dir. exact E.
Qed.

Lemma empty_batch_still_makes_destination_witness :
  let dest := or_default None (default_destination [plain]) in
  let t := main Builder.demo_parse Builder.demo_mgrs demo_serialize []
             [plain] None None true plain_fs in
  result_of t = Exit 0 /\
  events_of t = [EMkdir dest] /\
  mkdir_parents plain_fs dest = Ok (fs_of t) /\
  is_dir (fs_of t) dest = true.
Proof.
  apply (empty_batch_still_makes_destination Builder.demo_parse
           Builder.demo_mgrs demo_serialize [] [plain] None None true plain_fs).
  - vm_compute. reflexivity.
  - vm_compute. reflexivity.
  - vm_compute. reflexivity.
Defined.

(** X8 (one file, no output option).  For one input that is no
    directory and no output option, when the pipeline gives a text,
    [main] prints that text once on the standard output, writes no file,
    makes no directory, creates no task, leaves the file system as it was
    and exits with status 0; the suffix of the input plays no part. *)
Theorem single_file_is_printed
  (async_parse_gpx : string -> result Builder.parsed)
  (latlon_to_mgrs : pyval -> pyval -> result string)
  (serialize : list Builder.PointModel -> option Z -> string)
  (schedule : list nat)
  (file : Path) (indentation : option Z) (concurrency : bool)
  (m : filesystem) (json : string) :
  is_dir m file = false ->
  json_of async_parse_gpx latlon_to_mgrs serialize file indentation = Ok json ->
  let t := main async_parse_gpx latlon_to_mgrs serialize schedule
             [file] None indentation concurrency m in
  result_of t = Exit 0 /\
  fs_of t = m /\
  printed (events_of t) = [json] /\
  written (events_of t) = [] /\
  List.filter is_mkdir (events_of t) = [] /\
  created (events_of t) = [].
Proof.
  intros Hd Hj. cbv zeta. rewrite main_run, (main_body_single _ _ _ _ _ _ _ _ _ Hd).
  destruct (process_run async_parse_gpx latlon_to_mgrs serialize
              file None indentation concurrency m) as [log ->].
  rewrite Hj. triples.
  rewrite printed_app, written_app, created_app, List.filter_app,
    printed_logs, written_logs, created_logs, filter_mkdir_logs.
  repeat split.
Qed.

Lemma single_file_is_printed_witness :
  let t := main Builder.demo_parse Builder.demo_mgrs demo_serialize []
             [data // "demo.gpx"] None None false demo_fs in
  result_of t = Exit 0 /\
  fs_of t = demo_fs /\
  printed (events_of t) = ["[18SUJ2348306479,18SUJ2348306479,18SUJ2348306479]"] /\
  written (events_of t) = [] /\
  List.filter is_mkdir (events_of t) = [] /\
  created (events_of t) = [].
Proof.
  apply (single_file_is_printed Builder.demo_parse Builder.demo_mgrs
           demo_serialize [] (data // "demo.gpx") None false demo_fs).
  - vm_compute. reflexivity.
  - vm_compute. reflexivity.
Defined.

(** X9 (one file, with an output option).  For one input that is no
    directory and an output path, when the pipeline gives a text, [main]
    prints nothing, makes no directory and creates no task.  If the text
    can be written to the output path, that is the one thing written and
    the exit status is 0; if it cannot (the parent directory is missing,
    or the path is a directory), nothing is written, the file system is
    as it was, and [main] reports the [OSError] and exits with
    status 1. *)
Theorem single_file_is_written
  (async_parse_gpx : string -> result Builder.parsed)
  (latlon_to_mgrs : pyval -> pyval -> result string)
  (serialize : list Builder.PointModel -> option Z -> string)
  (schedule : list nat)
  (file out : Path) (indentation : option Z) (concurrency : bool)
  (m : filesystem) (json : string) :
  is_dir m file = false ->
  json_of async_parse_gpx latlon_to_mgrs serialize file indentation = Ok json ->
  let t := main async_parse_gpx latlon_to_mgrs serialize schedule
             [file] (Some out) indentation concurrency m in
  printed (events_of t) = [] /\
  List.filter is_mkdir (events_of t) = [] /\
  created (events_of t) = [] /\
  if is_ok (write_file m out json)
  then result_of t = Exit 0 /\
       write_file m out json = Ok (fs_of t) /\
       written (events_of t) = [(out, json)] /\
       reported (events_of t) = []
  else result_of t = Exit 1 /\
       fs_of t = m /\
       written (events_of t) = [] /\
       reported (events_of t) = [OSError].
Proof.
  intros Hd Hj. cbv zeta. rewrite main_run, (main_body_single _ _ _ _ _ _ _ _ _ Hd).
  destruct (process_run async_parse_gpx latlon_to_mgrs serialize
              file (Some out) indentation concurrency m) as [log ->].
  rewrite Hj. unfold write_file.
  destruct (is_dir m out); [|destruct (is_dir m (parent out))];
    cbn [caught is_ok]; triples;
    rewrite ?printed_app, ?written_app, ?created_app, ?reported_app,
      ?List.filter_app, ?printed_logs, ?written_logs, ?created_logs,
      ?reported_logs, ?filter_mkdir_logs;
    repeat split.
Qed.

Lemma single_file_is_written_witness :
  let t := main Builder.demo_parse Builder.demo_mgrs demo_serialize []
             [data // "demo.gpx"] (Some (data // "missing" // "out.json"))
             None false demo_fs in
  printed (events_of t) = [] /\
  List.filter is_mkdir (events_of t) = [] /\
  created (events_of t) = [] /\
  if is_ok (write_file demo_fs (data // "missing" // "out.json")
              "[18SUJ2348306479,18SUJ2348306479,18SUJ2348306479]")
  then result_of t = Exit 0 /\
       write_file demo_fs (data // "missing" // "out.json")
         "[18SUJ2348306479,18SUJ2348306479,18SUJ2348306479]" = Ok (fs_of t) /\
       written (events_of t)
         = [(data // "missing" // "out.json",
             "[18SUJ2348306479,18SUJ2348306479,18SUJ2348306479]")] /\
       reported (events_of t) = []
  else result_of t = Exit 1 /\
       fs_of t = demo_fs /\
       written (events_of t) = [] /\
       reported (events_of t) = [OSError].
Proof.
  apply (single_file_is_written Builder.demo_parse Builder.demo_mgrs
           demo_serialize [] (data // "demo.gpx") (data // "missing" // "out.json")
           None false demo_fs).
  - vm_compute. reflexivity.
  - vm_compute. reflexivity.
Defined.

(** X10 (one file whose pipeline fails).  For one input that is no
    directory, when the pipeline raises, [main] prints nothing on the
    standard output, writes nothing and leaves the file system as it
    was.  For the five exception classes of its [except] clause it
    reports the exception and exits with status 1; any other exception,
    the [TypeError] of a text coordinate among them, leaves [main]
    unreported. *)
Theorem single_file_failure
  (async_parse_gpx : string -> result Builder.parsed)
  (latlon_to_mgrs : pyval -> pyval -> result string)
  (serialize : list Builder.PointModel -> option Z -> string)
  (schedule : list nat)
  (file : Path) (output : option Path) (indentation : option Z)
  (concurrency : bool) (m : filesystem) (e : exn) :
  is_dir m file = false ->
  json_of async_parse_gpx latlon_to_mgrs serialize file indentation = Raise e ->
  let t := main async_parse_gpx latlon_to_mgrs serialize schedule
             [file] output indentation concurrency m in
  fs_of t = m /\
  printed (events_of t) = [] /\
  written (events_of t) = [] /\
  result_of t = (if caught e then Exit 1 else Uncaught e) /\
  reported (events_of t) = (if caught e then [e] else []).
Proof.
  intros Hd Hj. cbv zeta. rewrite main_run, (main_body_single _ _ _ _ _ _ _ _ _ Hd).
  destruct (process_run async_parse_gpx latlon_to_mgrs serialize
              file output indentation concurrency m) as [log ->].
  rewrite Hj. destruct (caught e); triples;
    rewrite ?printed_app, ?written_app, ?reported_app,
      ?printed_logs, ?written_logs, ?reported_logs;
    repeat split.
Qed.

Lemma single_file_failure_witness :
  let t := main Builder.demo_parse Builder.demo_mgrs demo_serialize []
             [data // "text.gpx"] None None false demo_fs in
  fs_of t = demo_fs /\
  printed (events_of t) = [] /\
  written (events_of t) = [] /\
  result_of t = (if caught TypeError then Exit 1 else Uncaught TypeError) /\
  reported (events_of t) = (if caught TypeError then [TypeError] else []).
Proof.
  apply (single_file_failure Builder.demo_parse Builder.demo_mgrs
           demo_serialize [] (data // "text.gpx") None None false demo_fs TypeError).
  - vm_compute. reflexivity.
  - vm_compute. reflexivity.
Defined.

(** X11 (nothing is removed).  Whatever its inputs and options, [main]
    removes no entry of the file system and no directory: every path
    that led somewhere still does, and every directory is still a
    directory. *)
Theorem main_removes_nothing
  (async_parse_gpx : string -> result Builder.parsed)
  (latlon_to_mgrs : pyval -> pyval -> result string)
  (serialize : list Builder.PointModel -> option Z -> string)
  (schedule : list nat)
  (inputs : list Path) (output : option Path) (indentation : option Z)
  (concurrency : bool) (m : filesystem) :
  (forall q, is_Some (m !! q) ->
     is_Some (fs_of (main async_parse_gpx latlon_to_mgrs serialize schedule
                       inputs output indentation concurrency m) !! q)) /\
  (forall d, is_dir m d = true ->
     is_dir (fs_of (main async_parse_gpx latlon_to_mgrs serialize schedule
                      inputs output indentation concurrency m)) d = true).
Proof.
  rewrite main_fs. destruct (batch_mode m inputs) eqn:Hb.
  - rewrite (main_body_batch _ _ _ _ _ _ _ _ _ Hb), process_batch_run.
    destruct (mkdir_parents m _) as [m1|e] eqn:E; [|triples; auto].
    cbv zeta. triples. destruct (mkdir_keeps _ _ _ E) as [K1 K2]. split.
    + intros q Hq. apply run_tasks_keep_entries, K1, Hq.
    + intros d Hd. apply run_tasks_keep_dir, K2, Hd.
  - unfold batch_mode in Hb. apply orb_false_iff in Hb as [Hlen Hd].
    destruct inputs as [|file [|file2 rest]]; try discriminate Hlen.
    cbn [List.hd] in Hd. rewrite (main_body_single _ _ _ _ _ _ _ _ _ Hd).
    destruct (process_run async_parse_gpx latlon_to_mgrs serialize
                file output indentation concurrency m) as [log ->].
    destruct (json_of _ _ _ file indentation) as [json|e]; [|triples; auto].
    destruct output as [out|]; [|triples; auto].
    destruct (write_file m out json) as [m'|e] eqn:W; triples; [|auto].
    split.
    + intros q Hq. eapply write_file_keeps; eauto.
    + intros d Hd'. eapply write_file_keeps_dir; eauto.
Qed.

(** X12 (what exit status 0 of a batch means).  When [main] ends a
    batch branch with exit status 0, every file handed over has been
    processed to the end: its pipeline gave a text, the text was written
    at [<destination>/<stem>.json], that path leads somewhere when [main]
    is done, and the destination is a directory. *)
Theorem batch_exit_0_means_all_written
  (async_parse_gpx : string -> result Builder.parsed)
  (latlon_to_mgrs : pyval -> pyval -> result string)
  (serialize : list Builder.PointModel -> option Z -> string)
  (schedule : list nat)
  (inputs : list Path) (output : option Path) (indentation : option Z)
  (concurrency : bool) (m : filesystem) :
  batch_mode m inputs = true ->
  result_of (main async_parse_gpx latlon_to_mgrs serialize schedule
               inputs output indentation concurrency m) = Exit 0 ->
  let dest := or_default output (default_destination inputs) in
  let t := main async_parse_gpx latlon_to_mgrs serialize schedule
             inputs output indentation concurrency m in
  is_dir (fs_of t) dest = true /\
  (forall file, In file (batch_files m inputs) ->
     exists json,
       json_of async_parse_gpx latlon_to_mgrs serialize file indentation
         = Ok json /\
       In (dest // (stem file ++ ".json"), json) (written (events_of t)) /\
       is_Some (fs_of t !! (dest // (stem file ++ ".json")))).
Proof.
  intros Hb Hex. cbv zeta.
  apply main_exit_0 in Hex as [Hr He].
  rewrite main_fs, He, (main_body_batch _ _ _ _ _ _ _ _ _ Hb).
  rewrite (main_body_batch _ _ _ _ _ _ _ _ _ Hb) in Hr.
  destruct (process_batch_done _ _ _ _ _ _ _ _ _ Hr) as [Hdir Hall].
  split; [exact Hdir|]. intros file Hin.
  destruct (Hall file Hin)
    as (json & Hj & Hw & file' & json' & _ & _ & _ & Hfs).
  exists json. split; [exact Hj|]. split; [exact Hw|].
  rewrite Hfs. eexists. reflexivity.
Qed.

Lemma batch_exit_0_means_all_written_witness :
  let inputs := [data // "demo.gpx"; data // "nan.gpx"] in
  let dest := or_default None (default_destination inputs) in
  let t := main Builder.demo_parse Builder.demo_mgrs demo_serialize []
             inputs None None true demo_fs in
  is_dir (fs_of t) dest = true /\
  (forall file, In file (batch_files demo_fs inputs) ->
     exists json,
       json_of Builder.demo_parse Builder.demo_mgrs demo_serialize file None
         = Ok json /\
       In (dest // (stem file ++ ".json"), json) (written (events_of t)) /\
       is_Some (fs_of t !! (dest // (stem file ++ ".json")))).
Proof.
  apply (batch_exit_0_means_all_written Builder.demo_parse Builder.demo_mgrs
           demo_serialize [] [data // "demo.gpx"; data // "nan.gpx"]
           None None true demo_fs).
  - vm_compute. reflexivity.
  - vm_compute. reflexivity.
Defined.

(** X13 (no output lands on a selected entry).  Given one directory,
    whatever the output option and the schedule, [main] writes no output
    at the path of an entry it selected, and the file system holds at
    that path what it held before: a selected file keeps its content,
    and a selected directory is still a directory.  The outputs are
    named [<stem>.json] and the selected entries [<stem>.gpx], so this
    holds even when the destination is the input directory itself.
    What lies inside a selected directory is not covered: when such a
    directory is the destination, the outputs are written into it. *)
Theorem selected_inputs_untouched
  (async_parse_gpx : string -> result Builder.parsed)
  (latlon_to_mgrs : pyval -> pyval -> result string)
  (serialize : list Builder.PointModel -> option Z -> string)
  (schedule : list nat)
  (inputdir : Path) (output : option Path) (indentation : option Z)
  (concurrency : bool) (m : filesystem) (q : Path) :
  is_dir m inputdir = true ->
  In q (batch_files m [inputdir]) ->
  let t := main async_parse_gpx latlon_to_mgrs serialize schedule
             [inputdir] output indentation concurrency m in
  fs_of t !! q = m !! q /\
  Forall (fun pw => fst pw <> q) (written (events_of t)).
Proof.
  intros Hd Hq. cbv zeta.
  assert (batch_mode m [inputdir] = true) as Hb
    by (unfold batch_mode; cbn [List.length List.hd Nat.eqb negb orb]; exact Hd).
  set (dest := or_default output (default_destination [inputdir])).
  pose proof Hq as Hq'. unfold batch_files in Hq'.
  cbn [List.length List.hd Nat.eqb] in Hq'.
  apply List.filter_In in Hq' as [Hent Hsuf].
  apply entries_spec in Hent as [Hsome _].
  unfold has_gpx_suffix in Hsuf. apply String.eqb_eq, gpx_name in Hsuf.
  assert (forall file, dest // (stem file ++ ".json") <> q) as Hne.
  { intros file Hpath. apply (f_equal name) in Hpath.
    rewrite name_truediv, Hsuf in Hpath.
    exact (json_name_is_no_gpx_name _ _ Hpath). }
  split.
  - rewrite main_fs, (main_body_batch _ _ _ _ _ _ _ _ _ Hb), process_batch_run.
    fold dest.
    destruct (mkdir_parents m dest) as [m1|e] eqn:E; [|reflexivity].
    cbv zeta. triples. rewrite run_tasks_elsewhere.
    + apply (mkdir_existing_unchanged _ _ _ _ E Hsome).
    + apply List.Forall_forall. intros [k c] Hc. apply scheduled_in in Hc.
      apply List.in_map_iff in Hc as (file & <- & _).
      cbn [snd batch_call outputfile].
      intros Heq. inversion Heq as [Hpath]. exact (Hne file Hpath).
  - destruct (main_events async_parse_gpx latlon_to_mgrs serialize schedule
                [inputdir] output indentation concurrency m)
      as (tail & -> & Hw & _).
    rewrite written_app, Hw, app_nil_r, (main_body_batch _ _ _ _ _ _ _ _ _ Hb).
    destruct (process_batch_outputs async_parse_gpx latlon_to_mgrs serialize
                schedule (batch_files m [inputdir]) dest indentation
                concurrency m) as (_ & _ & _ & H4).
    eapply List.Forall_impl; [|exact H4].
    intros pw (file & _ & E & _). rewrite E. apply Hne.
Qed.

Lemma selected_inputs_untouched_witness :
  let t := main Builder.demo_parse Builder.demo_mgrs demo_serialize [1]
             [data] (Some data) None false tracks_fs in
  fs_of t !! (data // "demo.gpx") = tracks_fs !! (data // "demo.gpx") /\
  Forall (fun pw => fst pw <> data // "demo.gpx") (written (events_of t)).
Proof.
  apply (selected_inputs_untouched Builder.demo_parse Builder.demo_mgrs
           demo_serialize [1] data (Some data) None false tracks_fs
           (data // "demo.gpx")).
  - vm_compute. reflexivity.
  - vm_compute. left. reflexivity.
Defined.

End OrchestratorBehaviour.

